(** * Formatting utilities ([src/utils/format.utils.ts])

    A shallow embedding of the five exported helpers
    [formatMoney], [getFormattedDateString], [getFormattedTimeString],
    [getAdjustedDate] and [parseCryptoLongcode], together with the parts of
    the ECMAScript runtime they call: regular-expression matching
    ([RegExp.prototype.exec], [String.prototype.replace] and [split]), the
    time-value arithmetic of [Date], and the host hooks that ECMAScript
    leaves to the implementation (current time, local time zone, date
    parsing, locale data).

    Conventions.
    - A JavaScript string is a Rocq [string], a sequence of code units
      below 256; the matcher works on them as a [list ascii].
    - A JavaScript number is modelled by [number]: the integer-valued
      doubles, NaN and the two infinities.  [Int z] is the double nearest
      to the integer [z], which is [z] itself up to 2^53; the arithmetic
      the helpers do on numbers is integer arithmetic, and it is exact
      as long as it stays below 2^53.
    - A [Date] object is its time value: [Some t] for [t] milliseconds
      since the epoch, [None] for NaN (an "Invalid Date").
    - Code that can throw lives in the [completion] monad. *)

From Stdlib Require Import ZArith String Ascii Bool Lia Arith List.
Import ListNotations.

Local Open Scope string_scope.
Local Open Scope list_scope.

(* ------------------------------------------------------------------ *)
(** * Completions: normal results and thrown errors *)

Inductive exn : Type :=
| Error (message : string)            (* [new Error(message)] *)
| RangeError (message : string)
| TypeError (message : string).

Inductive completion (A : Type) : Type :=
| Normal (a : A)
| Throw (e : exn).

Arguments Normal {A} a.
Arguments Throw {A} e.

Definition bind {A B} (c : completion A) (f : A -> completion B) : completion B :=
  match c with
  | Normal a => f a
  | Throw e => Throw e
  end.

(** [try { body } catch (e) { handler }] *)
Definition try_catch {A} (body : completion A) (handler : exn -> completion A)
  : completion A :=
  match body with
  | Normal a => Normal a
  | Throw e => handler e
  end.

Notation "x <- c ;; k" := (bind c (fun x => k))
  (at level 61, c at next level, right associativity).

(* ------------------------------------------------------------------ *)
(** * Characters and strings *)

Definition chars (s : string) : list ascii := list_ascii_of_string s.
Definition str (l : list ascii) : string := string_of_list_ascii l.

Definition code (a : ascii) : nat := nat_of_ascii a.

Definition in_range (lo hi : nat) (a : ascii) : bool :=
  (lo <=? code a)%nat && (code a <=? hi)%nat.

Definition is_digit (a : ascii) : bool := in_range 48 57 a.
Definition is_upper (a : ascii) : bool := in_range 65 90 a.
Definition is_lower (a : ascii) : bool := in_range 97 122 a.
Definition is_alnum (a : ascii) : bool := is_digit a || is_lower a || is_upper a.

(** [\w] is [[A-Za-z0-9_]]. *)
Definition is_word (a : ascii) : bool := is_alnum a || (code a =? 95)%nat.

(** [\s]: the white space and line terminator code units below 256
    (TAB, LF, VT, FF, CR, SP, NBSP). *)
Definition is_space (a : ascii) : bool :=
  in_range 9 13 a || (code a =? 32)%nat || (code a =? 160)%nat.

(** [.] without the [s] flag: anything but a line terminator. *)
Definition is_line_terminator (a : ascii) : bool :=
  (code a =? 10)%nat || (code a =? 13)%nat.

(* ------------------------------------------------------------------ *)
(** * Regular expressions

    The fragment of ECMAScript patterns used by the helpers: single
    characters and character classes, greedy counted repetition of a
    class, concatenation and numbered capturing groups.  The matcher is
    the backtracking matcher of the language definition, written with
    continuations: a repetition first tries to take one more character
    and falls back to fewer when the rest of the pattern fails. *)

Module RegExp.

Inductive cls : Type :=
| Chr (c : ascii)      (* a literal character *)
| Digit                (* \d *)
| Word                 (* \w *)
| Space                (* \s *)
| Dot                  (* . *)
| AlNum.               (* [0-9a-zA-Z] *)

Definition cls_test (c : cls) (a : ascii) : bool :=
  match c with
  | Chr x => Ascii.eqb x a
  | Digit => is_digit a
  | Word => is_word a
  | Space => is_space a
  | Dot => negb (is_line_terminator a)
  | AlNum => is_alnum a
  end.

Inductive regex : Type :=
| Atom (c : cls)
| Rep (c : cls) (lo : nat) (hi : option nat)   (* c{lo,hi}; [c+] is [Rep c 1 None] *)
| Cat (r1 r2 : regex)
| Group (n : nat) (r : regex).                 (* the n-th pair of parentheses *)

(** Captures, most recent first. *)
Definition caps : Type := list (nat * list ascii).

Fixpoint cap (n : nat) (cs : caps) : option (list ascii) :=
  match cs with
  | [] => None
  | (k, w) :: cs' => if (k =? n)%nat then Some w else cap n cs'
  end.

Definition room (hi : option nat) : bool :=
  match hi with Some O => false | _ => true end.

Fixpoint rep {R} (c : cls) (lo : nat) (hi : option nat) (s : list ascii)
         (k : list ascii -> option R) : option R :=
  let stop := match lo with O => k s | S _ => None end in
  match s with
  | a :: s' =>
      if room hi && cls_test c a then
        match rep c (pred lo) (option_map pred hi) s' k with
        | Some r => Some r
        | None => stop
        end
      else stop
  | [] => stop
  end.

Definition kont : Type := list ascii -> caps -> option (list ascii * caps).

Fixpoint m (r : regex) (s : list ascii) (cs : caps) (k : kont)
  : option (list ascii * caps) :=
  match r with
  | Atom c =>
      match s with
      | a :: s' => if cls_test c a then k s' cs else None
      | [] => None
      end
  | Rep c lo hi => rep c lo hi s (fun s' => k s' cs)
  | Cat r1 r2 => m r1 s cs (fun s1 cs1 => m r2 s1 cs1 k)
  | Group n r =>
      m r s cs (fun s1 cs1 =>
                  k s1 ((n, firstn (length s - length s1) s) :: cs1))
  end.

(** Match anchored at the start of [s]: the rest of the input and the
    captures. *)
Definition match_here (r : regex) (s : list ascii) : option (list ascii * caps) :=
  m r s [] (fun rest cs => Some (rest, cs)).

Record match_result : Type := MatchResult {
  before : list ascii;      (* input up to [index] *)
  matched : list ascii;     (* [result[0]] *)
  after : list ascii;
  groups : caps
}.

Definition shift (a : ascii) (mr : match_result) : match_result :=
  MatchResult (a :: before mr) (matched mr) (after mr) (groups mr).

(** [r.exec(s)] for a freshly evaluated literal ([lastIndex = 0]):
    the leftmost position at which the pattern matches. *)
Fixpoint exec (r : regex) (s : list ascii) : option match_result :=
  match match_here r s with
  | Some (rest, cs) =>
      Some (MatchResult [] (firstn (length s - length rest) s) rest cs)
  | None =>
      match s with
      | [] => None
      | a :: s' => option_map (shift a) (exec r s')
      end
  end.

(** [result[n]] for [n >= 1]; [undefined] is [None]. *)
Definition group (n : nat) (mr : match_result) : option string :=
  option_map str (cap n (groups mr)).

(** The text of group [n] in a replacement; a group that did not take
    part is the empty string. *)
Definition group_text (n : nat) (cs : caps) : list ascii :=
  match cap n cs with Some w => w | None => [] end.

(** [GetSubstitution] for the replacement templates in use: [$n] with
    a single digit [1-9] names a capture, everything else is literal. *)
Fixpoint substitute (tpl : list ascii) (cs : caps) : list ascii :=
  match tpl with
  | d :: ((n :: tpl') as rest) =>
      if Ascii.eqb d "$" && in_range 49 57 n
      then group_text (code n - 48) cs ++ substitute tpl' cs
      else d :: substitute rest cs
  | _ => tpl
  end.

(** [s.replace(r, f)] for a pattern without the [g] flag: only the
    first match is replaced. *)
Definition replace_with (r : regex) (f : list ascii -> caps -> list ascii)
           (s : string) : string :=
  match exec r (chars s) with
  | Some mr => str (before mr ++ f (matched mr) (groups mr) ++ after mr)
  | None => s
  end.

Definition replace (r : regex) (tpl : string) (s : string) : string :=
  replace_with r (fun _ cs => substitute (chars tpl) cs) s.

(** [s.split(r)] for a pattern without groups that cannot match the
    empty string.  [skip] counts the characters of a separator still
    to be dropped, [cur] is the token being read, reversed. *)
Fixpoint split_aux (r : regex) (s : list ascii) (skip : nat) (cur : list ascii)
  : list string :=
  match s with
  | [] => [str (rev cur)]
  | a :: s' =>
      match skip with
      | S n => split_aux r s' n cur
      | O =>
          match match_here r s with
          | Some (rest, _) =>
              match (length s - length rest)%nat with
              | O => split_aux r s' 0 (a :: cur)
              | S n => str (rev cur) :: split_aux r s' n []
              end
          | None => split_aux r s' 0 (a :: cur)
          end
      end
  end.

Definition split (r : regex) (s : string) : list string :=
  split_aux r (chars s) 0 [].

(** The string matched by a pattern, and the captures it leaves. *)
Fixpoint derives (r : regex) (w : list ascii) (cs cs' : caps) : Prop :=
  match r with
  | Atom c => (exists a, w = [a] /\ cls_test c a = true) /\ cs' = cs
  | Rep c lo hi =>
      (Forall (fun a => cls_test c a = true) w /\
       (lo <= length w)%nat /\
       match hi with Some h => (length w <= h)%nat | None => True end) /\
      cs' = cs
  | Cat r1 r2 =>
      exists w1 w2 cs1,
        w = w1 ++ w2 /\ derives r1 w1 cs cs1 /\ derives r2 w2 cs1 cs'
  | Group n r => exists cs1, derives r w cs cs1 /\ cs' = (n, w) :: cs1
  end.

(** The language of a pattern. *)
Definition lang (r : regex) (w : list ascii) : Prop :=
  exists cs', derives r w [] cs'.

End RegExp.

Import RegExp.

(** The patterns of the source, transcribed. *)

(** [/(\d{2}) (\w{3}) (\d{4})/] *)
Definition re_day_mon3_year : regex :=
  Cat (Group 1 (Rep Digit 2 (Some 2)))
 (Cat (Atom (Chr " "))
 (Cat (Group 2 (Rep Word 3 (Some 3)))
 (Cat (Atom (Chr " "))
      (Group 3 (Rep Digit 4 (Some 4)))))).

(** [/(\d{2}) (\w{3,4}) (\d{4})/] *)
Definition re_day_mon34_year : regex :=
  Cat (Group 1 (Rep Digit 2 (Some 2)))
 (Cat (Atom (Chr " "))
 (Cat (Group 2 (Rep Word 3 (Some 4)))
 (Cat (Atom (Chr " "))
      (Group 3 (Rep Digit 4 (Some 4)))))).

(** [/(\d{2})\/(\d{2})\/(\d{4})/] *)
Definition re_slashes : regex :=
  Cat (Group 1 (Rep Digit 2 (Some 2)))
 (Cat (Atom (Chr "/"))
 (Cat (Group 2 (Rep Digit 2 (Some 2)))
 (Cat (Atom (Chr "/"))
      (Group 3 (Rep Digit 4 (Some 4)))))).

(** [/,\s/] *)
Definition re_comma_space : regex := Cat (Atom (Chr ",")) (Atom Space).

(** [/:\s([0-9a-zA-Z]+.{25,28})/gm] and [/:\s([0-9a-zA-Z]+.{25,34})/gm].
    The flags do not matter here: the literal is evaluated anew at each
    call, so [lastIndex] is 0, and the pattern has no [^] or [$]. *)
Definition re_hash (hi : nat) : regex :=
  Cat (Atom (Chr ":"))
 (Cat (Atom Space)
      (Group 1 (Cat (Rep AlNum 1 None) (Rep Dot 25 (Some hi))))).

Definition re_address_hash : regex := re_hash 28.
Definition re_blockchain_hash : regex := re_hash 34.

(* ------------------------------------------------------------------ *)
(** * Numbers and values *)

Inductive number : Type :=
| Int (z : Z)               (* an integer-valued double: the one nearest to [z] *)
| NaN
| Infinity (negative : bool).

Definition num_neg (n : number) : number :=
  match n with
  | Int z => Int (- z)
  | NaN => NaN
  | Infinity b => Infinity (negb b)
  end.

Definition num_add (a b : number) : number :=
  match a, b with
  | Int x, Int y => Int (x + y)
  | NaN, _ | _, NaN => NaN
  | Infinity s, Int _ | Int _, Infinity s => Infinity s
  | Infinity s, Infinity s' => if Bool.eqb s s' then Infinity s else NaN
  end.

Definition num_mul (a b : number) : number :=
  match a, b with
  | Int x, Int y => Int (x * y)
  | NaN, _ | _, NaN => NaN
  | Infinity s, Int y | Int y, Infinity s =>
      if (y =? 0)%Z then NaN else Infinity (xorb s (y <? 0)%Z)
  | Infinity s, Infinity s' => Infinity (xorb s s')
  end.

(** [ToBoolean] on a number: 0 and NaN are falsy. *)
Definition truthy (n : number) : bool :=
  match n with
  | Int z => negb (z =? 0)%Z
  | NaN => false
  | Infinity _ => true
  end.

Definition digit_char (d : Z) : ascii := ascii_of_nat (48 + Z.to_nat d).

(** Decimal digits of a non-negative integer, most significant first. *)
Fixpoint digits_fuel (fuel : nat) (n : Z) (acc : list ascii) : list ascii :=
  match fuel with
  | O => acc
  | S f =>
      let acc' := digit_char (n mod 10) :: acc in
      if (n <? 10)%Z then acc' else digits_fuel f (n / 10) acc'
  end.

Definition digits (n : Z) : list ascii :=
  digits_fuel (S (Z.to_nat (Z.log2 n))) n [].

(** An integer written out in full, as the fields of a date are. *)
Definition Z_toString (z : Z) : string :=
  if (z <? 0)%Z then String "-" (str (digits (- z))) else str (digits z).

Local Open Scope Z_scope.

(** The double nearest to a non-negative integer [a]: exact up to 53
    significant bits, beyond that rounded to the nearest multiple of the
    unit in the last place, ties to the even significand. *)
Definition round_double (a : Z) : Z :=
  let e := Z.log2 a in
  if e <=? 52 then a
  else
    let ulp := 2 ^ (e - 52) in
    let q := a / ulp in
    let r := a mod ulp in
    let half := ulp / 2 in
    let q' := if r <? half then q
              else if half <? r then q + 1
              else if Z.even q then q else q + 1 in
    q' * ulp.

(** The real number [v] reads back as the double [x >= 2^53]: it lies
    in the rounding interval of [x], whose ends belong to it when the
    significand of [x] is even.  Below a power of two the interval is
    half as wide. *)
Definition rounds_to (x v : Z) : bool :=
  let e := Z.log2 x in
  let ulp := 2 ^ (e - 52) in
  let m := x / ulp in
  let below := if m =? 2 ^ 52 then ulp / 2 else ulp in
  let lo2 := 2 * x - below in
  let hi2 := 2 * x + ulp in
  if Z.even m then (lo2 <=? 2 * v) && (2 * v <=? hi2)
  else (lo2 <? 2 * v) && (2 * v <? hi2).

(** [Number::toString], step 5: the integer with the fewest significant
    digits [k] that reads back as [x], and among those the one closest
    to [x].  [n] is the number of digits of [x]. *)
Fixpoint shortest (fuel : nat) (x n k : Z) : Z :=
  match fuel with
  | O => x
  | S f =>
      if n <=? k then x
      else
        let p := 10 ^ (n - k) in
        let lo := x / p * p in
        let hi := lo + p in
        match rounds_to x lo, rounds_to x hi with
        | true, true =>
            if x - lo <? hi - x then lo
            else if hi - x <? x - lo then hi
            else if Z.even (lo / p) then lo else hi
        | true, false => lo
        | false, true => hi
        | false, false => shortest f x n (k + 1)
        end
  end.

Fixpoint strip_zeros (rev_digits : list ascii) : list ascii :=
  match rev_digits with
  | d :: rest => if Ascii.eqb d "0" then strip_zeros rest else rev_digits
  | [] => []
  end.

(** A double above 2^53: up to 21 digits are written out, the digits
    after the significant ones being zeros; from 10^21 on the
    significant digits are followed by [e+] and the exponent. *)
Definition large_toString (x : Z) : string :=
  let n := Z.of_nat (List.length (digits x)) in
  let v := shortest 17 x n 1 in
  let ds := digits v in
  let n := Z.of_nat (List.length ds) in
  if n <=? 21 then str ds
  else
    match rev (strip_zeros (rev ds)) with
    | d :: [] => str (d :: chars "e+" ++ digits (n - 1))
    | d :: more => str (d :: "."%char :: more ++ chars "e+" ++ digits (n - 1))
    | [] => str ds
    end.

(** The text of the double nearest to [a >= 0]. *)
Definition abs_toString (a : Z) : string :=
  let x := round_double a in
  if x <=? 2 ^ 53 then str (digits x)
  else if 2 ^ 1024 <=? x then "Infinity"
  else large_toString x.

(** [Number.prototype.toString()], that is [Number::toString(x, 10)]:
    the shortest decimal text that reads back as the number.  Integers
    up to 2^53 print in full, larger ones with at most 17 significant
    digits, and from 10^21 on in exponent form. *)
Definition Number_toString (n : number) : string :=
  match n with
  | Int z => if z <? 0 then String "-" (abs_toString (- z)) else abs_toString z
  | NaN => "NaN"
  | Infinity false => "Infinity"
  | Infinity true => "-Infinity"
  end.

(** [s.padStart(targetLength, padString)] *)
Definition padStart (target : nat) (pad : string) (s : string) : string :=
  let missing := (target - String.length s)%nat in
  match pad with
  | EmptyString => s
  | _ => str (firstn missing (concat (repeat (chars pad) missing))) ++ s
  end.

(** [s.slice(0, n)] for [n >= 0]. *)
Definition slice0 (n : nat) (s : list ascii) : list ascii := firstn n s.

(* ------------------------------------------------------------------ *)
(** * Time values (ECMAScript, "Date objects: overview") *)

Definition msPerSecond : Z := 1000.
Definition msPerMinute : Z := 60000.
Definition msPerHour : Z := 3600000.
Definition msPerDay : Z := 86400000.

Definition Day (t : Z) : Z := t / msPerDay.
Definition TimeWithinDay (t : Z) : Z := t mod msPerDay.

Definition isLeap (y : Z) : bool :=
  ((y mod 4 =? 0) && negb (y mod 100 =? 0)) || (y mod 400 =? 0).

Definition DaysInYear (y : Z) : Z := if isLeap y then 366 else 365.

Definition DayFromYear (y : Z) : Z :=
  365 * (y - 1970) + (y - 1969) / 4 - (y - 1901) / 100 + (y - 1601) / 400.

(** The largest [y] with [DayFromYear y <= d]: an estimate from the mean
    length of a year, corrected by at most one. *)
Definition YearFromDay (d : Z) : Z :=
  let y := 1970 + d * 400 / 146097 in
  if DayFromYear (y + 1) <=? d then y + 1
  else if DayFromYear y <=? d then y
  else y - 1.

Definition YearFromTime (t : Z) : Z := YearFromDay (Day t).

Definition DayWithinYear (t : Z) : Z := Day t - DayFromYear (YearFromTime t).

Definition InLeapYear (t : Z) : Z := if isLeap (YearFromTime t) then 1 else 0.

(** Day number within the year of the first day of month [m] (0-based). *)
Definition monthStart (leap m : Z) : Z :=
  match m with
  | 0 => 0
  | 1 => 31
  | 2 => 59 + leap
  | 3 => 90 + leap
  | 4 => 120 + leap
  | 5 => 151 + leap
  | 6 => 181 + leap
  | 7 => 212 + leap
  | 8 => 243 + leap
  | 9 => 273 + leap
  | 10 => 304 + leap
  | 11 => 334 + leap
  | _ => 365 + leap
  end.

(** 1 in a leap year, 0 otherwise. *)
Definition leapDays (y : Z) : Z := if isLeap y then 1 else 0.

(** Length of month [m] (0-based). *)
Definition DaysInMonth (leap m : Z) : Z :=
  monthStart leap (m + 1) - monthStart leap m.

(** The month that contains day [d] of a year ([leap] is 0 or 1). *)
Definition MonthOfDay (leap d : Z) : Z :=
  if d <? 31 then 0
  else if d <? 59 + leap then 1
  else if d <? 90 + leap then 2
  else if d <? 120 + leap then 3
  else if d <? 151 + leap then 4
  else if d <? 181 + leap then 5
  else if d <? 212 + leap then 6
  else if d <? 243 + leap then 7
  else if d <? 273 + leap then 8
  else if d <? 304 + leap then 9
  else if d <? 334 + leap then 10
  else 11.

Definition MonthFromTime (t : Z) : Z :=
  MonthOfDay (InLeapYear t) (DayWithinYear t).

Definition DateFromTime (t : Z) : Z :=
  DayWithinYear t - monthStart (InLeapYear t) (MonthFromTime t) + 1.

(** 0 is Sunday. *)
Definition WeekDay (t : Z) : Z := (Day t + 4) mod 7.

Definition HourFromTime (t : Z) : Z := (t / msPerHour) mod 24.
Definition MinFromTime (t : Z) : Z := (t / msPerMinute) mod 60.
Definition SecFromTime (t : Z) : Z := (t / msPerSecond) mod 60.

(** A [Date] is its time value; [None] is NaN. *)
Definition Date : Type := option Z.

Definition TimeClip (t : Z) : Date :=
  if Z.abs t <=? 8640000000000000 then Some t else None.

(** [MakeDay(year, month, date)]: the day number of the first of the
    month, plus [date - 1]; the month may overflow into the year. *)
Definition MakeDay (year month date : number) : option Z :=
  match year, month, date with
  | Int y, Int m, Int dt =>
      let ym := y + m / 12 in
      let mn := m mod 12 in
      Some (DayFromYear ym + monthStart (leapDays ym) mn + dt - 1)
  | _, _, _ => None
  end.

Definition MakeDate (day : option Z) (time : Z) : option Z :=
  match day with
  | Some d => Some (d * msPerDay + time)
  | None => None
  end.

(** The values a caller can pass for [dateInput]. *)
Inductive value : Type :=
| VUndefined
| VNull
| VBoolean (b : bool)
| VNumber (n : number)
| VString (s : string)
| VDate (d : Date).

Definition typeof (v : value) : string :=
  match v with
  | VUndefined => "undefined"
  | VNull => "object"
  | VBoolean _ => "boolean"
  | VNumber _ => "number"
  | VString _ => "string"
  | VDate _ => "object"
  end.

Definition instanceof_Date (v : value) : bool :=
  match v with VDate _ => true | _ => false end.

(* ------------------------------------------------------------------ *)
(** * [Intl.DateTimeFormatOptions]

    The object that the caller passes as [options] and that the helper
    copies with [{ ...options }].  The day, month and year hints, which
    the helper overwrites, are fields of their own; every other
    property of the object ([weekday], [era], [timeZone], [hour12],
    [dateStyle], ...) is kept by name in [other_hints] and travels with
    the copy to [toLocaleDateString]. *)

Inductive style : Type := numeric | two_digit | short | long | narrow.

Record DateTimeFormatOptions : Type := {
  day : option style;
  month : option style;
  year : option style;
  other_hints : list (string * value)
}.

(** [dateOptions.day = s], and the same for month and year. *)
Definition set_day (s : style) (o : DateTimeFormatOptions) :=
  {| day := Some s; month := month o; year := year o;
     other_hints := other_hints o |}.
Definition set_month (s : style) (o : DateTimeFormatOptions) :=
  {| day := day o; month := Some s; year := year o;
     other_hints := other_hints o |}.
Definition set_year (s : style) (o : DateTimeFormatOptions) :=
  {| day := day o; month := month o; year := Some s;
     other_hints := other_hints o |}.

(* ------------------------------------------------------------------ *)
(** * The host

    What ECMAScript and ECMA-402 leave to the implementation. *)

Record Host : Type := {
  (** time value of [new Date()] *)
  now : Z;
  (** [LocalTZA(t, isUTC)]: offset of local time, in milliseconds *)
  LocalTZA : Z -> bool -> Z;
  (** [Date.parse]; [None] is NaN *)
  Date_parse : string -> option Z;
  (** en-GB locale data: abbreviated name of month [0..11] *)
  month_abbr : Z -> string;
  (** [toLocaleDateString("en-GB", options)] at a time value, for
      options that carry other hints than day, month and year: the text,
      or the error that [Intl.DateTimeFormat] raises (a [RangeError] on
      an unknown time zone, a [TypeError] on [dateStyle] next to
      [day], ...) *)
  toLocaleDateString_hinted : DateTimeFormatOptions -> Z -> completion string
}.

Section WithHost.

Variable h : Host.

Definition LocalTime (t : Z) : Z := t + LocalTZA h t true.
Definition UTC (t : Z) : Z := t - LocalTZA h t false.

Definition Date_of_number (n : number) : Date :=
  match n with
  | Int z => TimeClip z
  | _ => None
  end.

(** [new Date(v)] with one argument. *)
Definition new_Date (v : value) : Date :=
  match v with
  | VDate d => d
  | VString s => match Date_parse h s with Some t => TimeClip t | None => None end
  | VNumber n => Date_of_number n
  | VBoolean b => Some (if b then 1 else 0)
  | VNull => Some 0
  | VUndefined => None
  end.

(** [v * 1000], evaluated only when [v] is a number. *)
Definition times_1000 (v : value) : value :=
  match v with
  | VNumber n => VNumber (num_mul n (Int 1000))
  | v => v
  end.

Definition getFullYear (d : Date) : number :=
  match d with Some t => Int (YearFromTime (LocalTime t)) | None => NaN end.

Definition getDate (d : Date) : number :=
  match d with Some t => Int (DateFromTime (LocalTime t)) | None => NaN end.

Definition getUTCHours (d : Date) : number :=
  match d with Some t => Int (HourFromTime t) | None => NaN end.

Definition getUTCMinutes (d : Date) : number :=
  match d with Some t => Int (MinFromTime t) | None => NaN end.

Definition getUTCSeconds (d : Date) : number :=
  match d with Some t => Int (SecFromTime t) | None => NaN end.

Definition clip_local (newDate : option Z) : Date :=
  match newDate with
  | Some l => TimeClip (UTC l)
  | None => None
  end.

(** [d.setDate(dt)], as the new time value. *)
Definition setDate (d : Date) (dt : number) : Date :=
  match d with
  | None => None
  | Some t0 =>
      let t := LocalTime t0 in
      clip_local
        (MakeDate (MakeDay (Int (YearFromTime t)) (Int (MonthFromTime t)) dt)
                  (TimeWithinDay t))
  end.

(** [d.setFullYear(y)], as the new time value. *)
Definition setFullYear (d : Date) (y : number) : Date :=
  let t := match d with Some t0 => LocalTime t0 | None => 0 end in
  clip_local
    (MakeDate (MakeDay y (Int (MonthFromTime t)) (Int (DateFromTime t)))
              (TimeWithinDay t)).

End WithHost.

(* ------------------------------------------------------------------ *)
(** * [Date.prototype.toLocaleDateString("en-GB", options)]

    A request whose only hints are day, month and year is rendered
    here; the helper assigns all three before every call, and a request
    that leaves one out simply omits it.  A request with other hints is
    rendered by the host. *)

Definition pad2 (z : Z) : string := padStart 2 "0" (Z_toString z).

Definition month_name (m : Z) : string :=
  match m with
  | 0 => "January" | 1 => "February" | 2 => "March" | 3 => "April"
  | 4 => "May" | 5 => "June" | 6 => "July" | 7 => "August"
  | 8 => "September" | 9 => "October" | 10 => "November" | _ => "December"
  end.

Definition textual (s : option style) : bool :=
  match s with
  | Some short | Some long | Some narrow => true
  | _ => false
  end.

(** The Gregorian year as the [y] pattern field prints it: the year of
    the era, without the era. *)
Definition year_of_era (y : Z) : Z := if y <=? 0 then 1 - y else y.

Section ToLocaleDateString.

Variable h : Host.

Definition render_day (txt : bool) (s : style) (d : Z) : string :=
  match s with
  | two_digit => pad2 d
  | _ => if txt then Z_toString d else pad2 d
  end.

Definition render_month (s : style) (m : Z) : string :=
  match s with
  | short => month_abbr h m
  | long => month_name m
  | narrow => substring 0 1 (month_name m)
  | _ => pad2 (m + 1)
  end.

Definition render_year (s : style) (y : Z) : string :=
  match s with
  | two_digit => pad2 (year_of_era y mod 100)
  | _ => Z_toString (year_of_era y)
  end.

Definition field (f : style -> Z -> string) (s : option style) (v : Z)
  : list string :=
  match s with Some st => [f st v] | None => [] end.

(** The en-GB text for day, month and year hints alone; without any
    of the three, all three are numeric. *)
Definition render_date (o : DateTimeFormatOptions) (t0 : Z) : string :=
  let t := LocalTime h t0 in
  let o :=
    match day o, month o, year o with
    | None, None, None =>
        {| day := Some numeric; month := Some numeric; year := Some numeric;
           other_hints := [] |}
    | _, _, _ => o
    end in
  let txt := textual (month o) in
  String.concat (if txt then " " else "/")
    (field (render_day txt) (day o) (DateFromTime t) ++
     field render_month (month o) (MonthFromTime t) ++
     field render_year (year o) (YearFromTime t)).

(** An invalid date gives "Invalid Date" before the options are looked
    at. *)
Definition toLocaleDateString_enGB (o : DateTimeFormatOptions) (d : Date)
  : completion string :=
  match d with
  | None => Normal "Invalid Date"
  | Some t0 =>
      match other_hints o with
      | [] => Normal (render_date o t0)
      | _ :: _ => toLocaleDateString_hinted h o t0
      end
  end.

End ToLocaleDateString.

(* ------------------------------------------------------------------ *)
(** * The helpers *)

Definition default {A} (d : A) (o : option A) : A :=
  match o with Some a => a | None => d end.

Section FormatMoney.

(** [CurrencyConstants.precision], a table that lives outside this
    file: currency code to decimal places. *)
Variable precision : string -> option number.

(** [new Intl.NumberFormat(locale, { minimumFractionDigits,
    maximumFractionDigits })]: the constructor throws a [RangeError]
    on a malformed locale tag or on digits outside 0..100, and
    otherwise yields the [format] function. *)
Variable NumberFormat :
  string -> option number -> option number -> completion (number -> string).

Record FormatMoneyOptions : Type := {
  currency : option string;
  decimalPlaces : option number;
  locale : option string
}.

Definition no_options : FormatMoneyOptions :=
  {| currency := None; decimalPlaces := None; locale := None |}.

(** [a || b] on values that are a number or [undefined]. *)
Definition or_else (a b : option number) : option number :=
  match a with
  | Some n => if truthy n then a else b
  | None => b
  end.

(** [decimalPlaces || currencyPrecision], with
    [currencyPrecision = CurrencyConstants.precision[currency ?? "USD"]]. *)
Definition fractionDigits (o : FormatMoneyOptions) : option number :=
  let currencyPrecision := precision (default "USD" (currency o)) in
  or_else (decimalPlaces o) currencyPrecision.

Definition formatMoney (number : number) (options : option FormatMoneyOptions)
  : completion string :=
  try_catch
    (let o := default no_options options in
     let locale := default "en-US" (locale o) in
     let fractionDigits := fractionDigits o in
     formatter <- NumberFormat locale fractionDigits fractionDigits ;;
     Normal (formatter number))
    (fun e => Normal (Number_toString number)).

End FormatMoney.

Section Dates.

Variable h : Host.

(** [{ day: "2-digit", month: "2-digit", year: "numeric" }] *)
Definition default_date_options : DateTimeFormatOptions :=
  {| day := Some two_digit; month := Some two_digit; year := Some numeric;
     other_hints := [] |}.

Definition getFormattedDateString
           (dateInput : value)
           (options : option DateTimeFormatOptions)
           (format : option string)
           (unix : option bool) : completion string :=
  let options := default default_date_options options in
  let format := default "YYYY-MM-DD" format in
  let unix := default false unix in
  let dateOptions := options in
  dateObj <-
    (if String.eqb (typeof dateInput) "number" && unix then
       Normal (new_Date h (times_1000 dateInput))
     else if String.eqb (typeof dateInput) "string" || instanceof_Date dateInput then
       Normal (new_Date h dateInput)
     else Throw (Error "Invalid date input")) ;;
  let finish (dateOptions : DateTimeFormatOptions) : completion string :=
    text <- toLocaleDateString_enGB h dateOptions dateObj ;;
    let formattedDate :=
      replace_with re_day_mon34_year
        (fun _ cs =>
           group_text 1 cs ++ chars " " ++ slice0 3 (group_text 2 cs)
                      ++ chars " " ++ group_text 3 cs)
        text in
    Normal
      (if String.eqb format "DD MMM YYYY" || String.eqb format "MMM DD YYYY"
       then formattedDate
       else replace re_slashes "$3-$2-$1" formattedDate) in
  if String.eqb format "DD MMM YYYY" then
    finish (set_year numeric (set_month short (set_day two_digit dateOptions)))
  else if String.eqb format "MMM DD YYYY" then
    let dateOptions :=
      set_year numeric (set_month short (set_day two_digit dateOptions)) in
    text <- toLocaleDateString_enGB h dateOptions dateObj ;;
    Normal (replace re_day_mon3_year "$2 $1 $3" text)
  else
    finish (set_day two_digit (set_month two_digit (set_year numeric dateOptions))).

Definition getFormattedTimeString (dateInput : value) (unix : option bool)
  : completion string :=
  let unix := default false unix in
  dateObj <-
    (if String.eqb (typeof dateInput) "number" && unix then
       Normal (new_Date h (times_1000 dateInput))
     else if String.eqb (typeof dateInput) "string" || instanceof_Date dateInput then
       Normal (new_Date h dateInput)
     else Throw (Error "Invalid date input")) ;;
  Normal
    (padStart 2 "0" (Number_toString (getUTCHours dateObj)) ++ ":" ++
     padStart 2 "0" (Number_toString (getUTCMinutes dateObj)) ++ ":" ++
     padStart 2 "0" (Number_toString (getUTCSeconds dateObj)) ++ " GMT")%string.

Definition getAdjustedDate (amount : number) (type operation : option string)
  : Date :=
  let type := default "days" type in
  let operation := default "add" operation in
  let date : Date := Some (now h) in
  let adjustedAmount :=
    if String.eqb operation "add" then amount else num_neg amount in
  if String.eqb type "years" then
    setFullYear h date (num_add (getFullYear h date) adjustedAmount)
  else if String.eqb type "days" then
    setDate h date (num_add (getDate h date) adjustedAmount)
  else date.

End Dates.

Record Longcode : Type := {
  addressHash : option string;
  blockchainHash : option string;
  splitLongcode : list string
}.

(** [a[i]] on an array of strings, then [ToString]: a missing element
    is [undefined], which [exec] reads as the text "undefined". *)
Definition element_text (a : list string) (i : nat) : string :=
  match nth_error a i with
  | Some s => s
  | None => "undefined"
  end.

Definition parseCryptoLongcode (longcode : string) : Longcode :=
  let splitLongcode := split re_comma_space longcode in
  let addressHashMatch := exec re_address_hash (chars (element_text splitLongcode 0)) in
  let addressHash :=
    match addressHashMatch with Some mr => group 1 mr | None => None end in
  let blockchainHashMatch :=
    exec re_blockchain_hash (chars (element_text splitLongcode 1)) in
  let blockchainHash :=
    match blockchainHashMatch with Some mr => group 1 mr | None => None end in
  {| addressHash := addressHash;
     blockchainHash := blockchainHash;
     splitLongcode := splitLongcode |}.

(* ------------------------------------------------------------------ *)
(** * A reference host

    A host in the UTC time zone whose [Date.parse] reads the two shapes
    of the ECMAScript date-time string format that the documentation of
    the helpers uses, [YYYY-MM-DD] and [YYYY-MM-DDTHH:mm:ss[.sss]Z],
    and rejects everything else. *)

Module RefHost.

Definition digit_val (a : ascii) : Z := Z.of_nat (code a) - 48.

(** Reads exactly [n] decimal digits. *)
Fixpoint take_digits (n : nat) (acc : Z) (s : list ascii) : option (Z * list ascii) :=
  match n with
  | O => Some (acc, s)
  | S n' =>
      match s with
      | a :: s' =>
          if is_digit a then take_digits n' (10 * acc + digit_val a) s' else None
      | [] => None
      end
  end.

Definition expect (c : ascii) (s : list ascii) : option (list ascii) :=
  match s with
  | a :: s' => if Ascii.eqb a c then Some s' else None
  | [] => None
  end.

Definition obind {A B} (o : option A) (f : A -> option B) : option B :=
  match o with Some a => f a | None => None end.

Notation "' p <-? o ; k" := (obind o (fun p => k))
  (at level 61, p pattern, o at next level, right associativity).

Definition parse_time (s : list ascii) : option Z :=
  ' (hh, s) <-? take_digits 2 0 s ;
  ' s <-? expect ":" s ;
  ' (mm, s) <-? take_digits 2 0 s ;
  ' s <-? expect ":" s ;
  ' (ss, s) <-? take_digits 2 0 s ;
  ' (ms, s) <-? match expect "." s with
                | Some s' => take_digits 3 0 s'
                | None => Some (0, s)
                end ;
  match s with
  | ["Z"%char] =>
      if (hh <=? 23) && (mm <=? 59) && (ss <=? 59)
      then Some (hh * msPerHour + mm * msPerMinute + ss * msPerSecond + ms)
      else None
  | _ => None
  end.

Definition parse (text : string) : option Z :=
  ' (y, s) <-? take_digits 4 0 (chars text) ;
  ' s <-? expect "-" s ;
  ' (mo, s) <-? take_digits 2 0 s ;
  ' s <-? expect "-" s ;
  ' (d, s) <-? take_digits 2 0 s ;
  if (1 <=? mo) && (mo <=? 12) && (1 <=? d) && (d <=? DaysInMonth (leapDays y) (mo - 1)) then
    ' time <-? match s with
               | [] => Some 0
               | a :: s' => if Ascii.eqb a "T" then parse_time s' else None
               end ;
    MakeDate (MakeDay (Int y) (Int (mo - 1)) (Int d)) time
  else None.

(** Abbreviated month names of en-GB: CLDR 38 and later write "Sept",
    earlier releases "Sep". *)
Definition abbr (september : string) (m : Z) : string :=
  match m with
  | 0 => "Jan" | 1 => "Feb" | 2 => "Mar" | 3 => "Apr"
  | 4 => "May" | 5 => "Jun" | 6 => "Jul" | 7 => "Aug"
  | 8 => september | 9 => "Oct" | 10 => "Nov" | _ => "Dec"
  end.

Definition weekday_name (d : Z) : string :=
  match d with
  | 0 => "Sunday" | 1 => "Monday" | 2 => "Tuesday" | 3 => "Wednesday"
  | 4 => "Thursday" | 5 => "Friday" | _ => "Saturday"
  end.

(** Of the other hints the host knows [weekday: "long"], on a date
    with two-digit day and month and numeric year; a request with any
    other hint it refuses. *)
Definition hinted (o : DateTimeFormatOptions) (t : Z) : completion string :=
  match other_hints o, day o, month o, year o with
  | [(name, VString v)], Some two_digit, Some two_digit, Some numeric =>
      if String.eqb name "weekday" && String.eqb v "long" then
        Normal (weekday_name (WeekDay t) ++ ", " ++
                pad2 (DateFromTime t) ++ "/" ++ pad2 (MonthFromTime t + 1) ++ "/" ++
                Z_toString (year_of_era (YearFromTime t)))%string
      else Throw (RangeError "Unsupported option")
  | _, _, _, _ => Throw (RangeError "Unsupported option")
  end.

(** The host at 2023-05-15T14:30:00Z. *)
Definition host : Host :=
  {| now := 1684161000000;
     LocalTZA := fun _ _ => 0;
     Date_parse := parse;
     month_abbr := abbr "Sept";
     toLocaleDateString_hinted := hinted |}.

Definition host_cldr37 : Host :=
  {| now := 1684161000000;
     LocalTZA := fun _ _ => 0;
     Date_parse := parse;
     month_abbr := abbr "Sep";
     toLocaleDateString_hinted := hinted |}.

(** [Intl.NumberFormat] on integer amounts for the locale tags
    "en-US" and "de-DE"; any other tag is taken to be malformed. *)
Fixpoint group3 (sep : ascii) (ds : list ascii) (n : nat) : list ascii :=
  match ds with
  | [] => []
  | d :: ds' =>
      d :: (if (0 <? n)%nat && (n mod 3 =? 0)%nat then [sep] else [])
        ++ group3 sep ds' (n - 1)
  end.

Definition format_int (grp dec : ascii) (frac : nat) (n : number) : string :=
  match n with
  | Int z =>
      let ds := digits (Z.abs z) in
      let body := group3 grp ds (List.length ds - 1) in
      let tail := match frac with O => [] | _ => dec :: repeat "0"%char frac end in
      str ((if z <? 0 then ["-"%char] else []) ++ body ++ tail)
  | NaN => "NaN"
  | Infinity false => "∞"
  | Infinity true => "-∞"
  end.

Definition resolve_digits (d : option number) : completion nat :=
  match d with
  | None => Normal O
  | Some (Int z) =>
      if (0 <=? z) && (z <=? 100) then Normal (Z.to_nat z)
      else Throw (RangeError "fraction digits value is out of range")
  | Some _ => Throw (RangeError "fraction digits value is out of range")
  end.

Definition NumberFormat (locale : string) (minFD maxFD : option number)
  : completion (number -> string) :=
  seps <- (if String.eqb locale "en-US" then Normal (","%char, "."%char)
           else if String.eqb locale "de-DE" then Normal ("."%char, ","%char)
           else Throw (RangeError "Incorrect locale information provided")) ;;
  lo <- resolve_digits minFD ;;
  _ <- resolve_digits maxFD ;;
  Normal (format_int (fst seps) (snd seps) lo).

(** A precision table with two entries. *)
Definition precision (currency : string) : option number :=
  if String.eqb currency "USD" then Some (Int 2)
  else if String.eqb currency "BTC" then Some (Int 8)
  else None.

End RefHost.

(* ------------------------------------------------------------------ *)
(** * Vocabulary of the statements *)

(** [+amount] for the operation "add", [-amount] otherwise. *)
Definition signed (operation : option string) (a : Z) : Z :=
  if String.eqb (default "add" operation) "add" then a else - a.

(** 29 February moved to a year without one. *)
Definition leap_day_lost (l s : Z) : bool :=
  (MonthFromTime l =? 1) && (DateFromTime l =? 29)
  && negb (isLeap (YearFromTime l + s)).

(** The block both formatters start with. *)
Definition dateObj_of (h : Host) (dateInput : value) (unix : bool) : completion Date :=
  if String.eqb (typeof dateInput) "number" && unix then
    Normal (new_Date h (times_1000 dateInput))
  else if String.eqb (typeof dateInput) "string" || instanceof_Date dateInput then
    Normal (new_Date h dateInput)
  else Throw (Error "Invalid date input").

Definition hh_mm_ss (d : Date) : string :=
  (padStart 2 "0" (Number_toString (getUTCHours d)) ++ ":" ++
   padStart 2 "0" (Number_toString (getUTCMinutes d)) ++ ":" ++
   padStart 2 "0" (Number_toString (getUTCSeconds d)) ++ " GMT")%string.

(** The two decimal digits of a number below 100. *)
Definition two_digits (n : Z) : string :=
  String (digit_char (n / 10)) (String (digit_char (n mod 10)) EmptyString).

Definition pad_ok (n : nat) : bool :=
  String.eqb (padStart 2 "0" (Number_toString (Int (Z.of_nat n))))
             (two_digits (Z.of_nat n)).

(** The options object [{}]. *)
Definition no_hints : DateTimeFormatOptions :=
  {| day := None; month := None; year := None; other_hints := [] |}.

(** The hints of the options argument other than day, month and year;
    an argument left out stands for the default object, which has none. *)
Definition hints_of (options : option DateTimeFormatOptions)
  : list (string * value) :=
  other_hints (default default_date_options options).

(** The options argument has no hints other than day, month and year. *)
Definition plain (options : option DateTimeFormatOptions) : Prop :=
  hints_of options = [].

(** A letter of the basic Latin alphabet. *)
Definition is_letter (c : ascii) : bool := is_upper c || is_lower c.

(** The replacement function of the "DD MMM YYYY" path:
    [(_, day, month, year) => `${day} ${month.slice(0, 3)} ${year}`]. *)
Definition cut_month : list ascii -> caps -> list ascii :=
  fun _ cs =>
    group_text 1 cs ++ chars " " ++ slice0 3 (group_text 2 cs)
               ++ chars " " ++ group_text 3 cs.

(** The text consists of letters. *)
Definition letters (s : string) : bool := forallb is_letter (chars s).

(** The layouts of a date with day [dd], month number [mm], month
    abbreviation [abbr] and year [yyyy]. *)
Definition layout (format : string) (dd mm abbr yyyy : string) : string :=
  if String.eqb format "DD MMM YYYY" then
    dd ++ " " ++ substring 0 3 abbr ++ " " ++ yyyy
  else if String.eqb format "MMM DD YYYY" then
    if (String.length abbr =? 3)%nat
    then abbr ++ " " ++ dd ++ " " ++ yyyy
    else dd ++ " " ++ abbr ++ " " ++ yyyy
  else yyyy ++ "-" ++ mm ++ "-" ++ dd.

(** The pattern occurs somewhere in the text. *)
Definition occurs (r : regex) (s : list ascii) : Prop :=
  exists pre w post, s = pre ++ w ++ post /\ lang r w.

(** What the hash patterns extract from a token: after a colon and one
    white-space character, one or more alphanumeric characters [a]
    followed by 25 to [hi] further characters [b] of any kind except
    line terminators. *)
Definition hash_in (hi : nat) (token hsh : string) : Prop :=
  exists pre sp a b post,
    chars token = pre ++ ":"%char :: sp :: a ++ b ++ post /\
    is_space sp = true /\
    chars hsh = a ++ b /\
    a <> [] /\
    Forall (fun c => is_alnum c = true) a /\
    (25 <= length b <= hi)%nat /\
    Forall (fun c => is_line_terminator c = false) b /\
    (26 <= length (chars hsh))%nat.

(** Between [lo] and [hi] characters, all of them alphanumeric. *)
Definition alnum_between (lo hi : nat) (hsh : string) : Prop :=
  (lo <= String.length hsh <= hi)%nat /\
  Forall (fun c => is_alnum c = true) (chars hsh).

(** The field extracted by [exec(token)?.[1]] for a hash pattern. *)
Definition extract (hi : nat) (tokens : list string) (i : nat) : option string :=
  match exec (re_hash hi) (chars (element_text tokens i)) with
  | Some mr => group 1 mr
  | None => None
  end.

(** Joining tokens with a comma and one white-space character each. *)
Fixpoint join (tokens : list string) (ws : list ascii) : string :=
  match tokens with
  | [] => ""
  | t :: rest =>
      match rest, ws with
      | _ :: _, w :: ws' => t ++ String "," (String w (join rest ws'))
      | _, _ => t
      end
  end.

(** [split] on the characters of the text. *)
Definition split_chars (l : list ascii) : list string :=
  split_aux re_comma_space l 0 [].

(** The text has no character [x]. *)
Definition without (x : ascii) (l : list ascii) : Prop :=
  Forall (fun c => Ascii.eqb x c = false) l.

(** A segment [label: hash]: a label without colon or comma, a colon,
    one white-space character, and an alphanumeric hash of at least 26
    characters. *)
Definition segment (label : string) (sp : ascii) (hsh : string) : string :=
  (label ++ String ":" (String sp hsh))%string.

(** The conditions on the parts of a segment. *)
Definition well_formed (label : string) (sp : ascii) (hsh : string) : Prop :=
  without ":" (chars label) /\ without "," (chars label) /\
  is_space sp = true /\
  Forall (fun c => is_alnum c = true) (chars hsh) /\
  (26 <= String.length hsh)%nat.

(** The two requests that reach [toLocaleDateString], with the other
    hints of the caller. *)
Definition text_request (hints : list (string * value)) : DateTimeFormatOptions :=
  {| day := Some two_digit; month := Some short; year := Some numeric;
     other_hints := hints |}.

Definition numeric_request (hints : list (string * value)) : DateTimeFormatOptions :=
  {| day := Some two_digit; month := Some two_digit; year := Some numeric;
     other_hints := hints |}.

(** The date formatter, with its input already normalised. *)
Definition format_date (h : Host) (hints : list (string * value))
           (format : string) (d : Date) : completion string :=
  if String.eqb format "DD MMM YYYY" then
    text <- toLocaleDateString_enGB h (text_request hints) d ;;
    Normal (replace_with re_day_mon34_year cut_month text)
  else if String.eqb format "MMM DD YYYY" then
    text <- toLocaleDateString_enGB h (text_request hints) d ;;
    Normal (replace re_day_mon3_year "$2 $1 $3" text)
  else
    text <- toLocaleDateString_enGB h (numeric_request hints) d ;;
    Normal (replace re_slashes "$3-$2-$1"
              (replace_with re_day_mon34_year cut_month text)).

(** [ts] are the segments of the text: none of them has a separator
    in it, and joined with a comma and a white-space character each
    they are the text. *)
Definition segments (text : string) (ts : list string) : Prop :=
  Forall (fun t => ~ occurs re_comma_space (chars t)) ts /\
  exists ws,
    Forall (fun w => is_space w = true) ws /\
    S (length ws) = length ts /\
    join ts ws = text.

(** The format tag is neither of the two textual ones. *)
Definition numeric_tag (format : option string) : Prop :=
  default "YYYY-MM-DD" format <> "DD MMM YYYY" /\
  default "YYYY-MM-DD" format <> "MMM DD YYYY".

(** Seconds since midnight, UTC. *)
Definition second_of_day (t : Z) : Z := (t / 1000) mod 86400.


(* ------------------------------------------------------------------ *)
(** * Strings and their characters *)

Lemma chars_str l : chars (str l) = l.
Proof. apply list_ascii_of_string_of_list_ascii. Qed.

Lemma str_chars s : str (chars s) = s.
Proof. apply string_of_list_ascii_of_string. Qed.

(* ------------------------------------------------------------------ *)
(** * Calendar arithmetic *)

Ltac zlia := Z.div_mod_to_equations; lia.

Ltac split_ltb :=
  repeat match goal with
         | |- context [if ?a <? ?b then _ else _] => destruct (Z.ltb_spec a b)
         end.

Ltac month_cases m :=
  let M := fresh "M" in
  assert (m = 0 \/ m = 1 \/ m = 2 \/ m = 3 \/ m = 4 \/ m = 5 \/ m = 6 \/
          m = 7 \/ m = 8 \/ m = 9 \/ m = 10 \/ m = 11) as M by lia;
  repeat (destruct M as [M|M]; [subst m|]); try subst m.

Lemma isLeap_true y :
  isLeap y = true <-> (y mod 4 = 0 /\ y mod 100 <> 0) \/ y mod 400 = 0.
Proof.
  unfold isLeap.
  rewrite orb_true_iff, andb_true_iff, negb_true_iff, !Z.eqb_eq, Z.eqb_neq.
  tauto.
Qed.

Lemma DayFromYear_succ y : DayFromYear (y + 1) = DayFromYear y + DaysInYear y.
Proof.
  unfold DaysInYear, DayFromYear.
  destruct (isLeap y) eqn:E.
  - apply isLeap_true in E. zlia.
  - assert (~ ((y mod 4 = 0 /\ y mod 100 <> 0) \/ y mod 400 = 0))
      by (rewrite <- isLeap_true; congruence).
    zlia.
Qed.

Lemma DayFromYear_mono y y' : y <= y' -> DayFromYear y <= DayFromYear y'.
Proof. unfold DayFromYear. intros. zlia. Qed.

(** [YearFromDay d] is a year that contains day [d] ... *)
Lemma YearFromDay_spec d :
  DayFromYear (YearFromDay d) <= d < DayFromYear (YearFromDay d + 1).
Proof.
  unfold YearFromDay.
  set (y := 1970 + d * 400 / 146097).
  assert (Hy : 146097 * (y - 1970) <= d * 400 < 146097 * (y - 1970) + 146097)
    by (subst y; zlia).
  clearbody y.
  destruct (Z.leb_spec (DayFromYear (y + 1)) d);
    [|destruct (Z.leb_spec (DayFromYear y) d)].
  - split; [lia|]. unfold DayFromYear in *. zlia.
  - split; lia.
  - unfold DayFromYear in *. zlia.
Qed.

(** ... and the only one. *)
Lemma YearFromDay_unique y d :
  DayFromYear y <= d < DayFromYear (y + 1) -> YearFromDay d = y.
Proof.
  intros H. pose proof (YearFromDay_spec d) as S.
  destruct (Z.lt_trichotomy (YearFromDay d) y) as [L|[E|G]]; [| exact E |].
  - pose proof (DayFromYear_mono (YearFromDay d + 1) y). lia.
  - pose proof (DayFromYear_mono (y + 1) (YearFromDay d)). lia.
Qed.

Lemma leapDays_cases y : leapDays y = 0 \/ leapDays y = 1.
Proof. unfold leapDays. destruct (isLeap y); auto. Qed.

Lemma DaysInYear_leapDays y : DaysInYear y = 365 + leapDays y.
Proof. unfold DaysInYear, leapDays. destruct (isLeap y); reflexivity. Qed.

Lemma InLeapYear_leapDays t : InLeapYear t = leapDays (YearFromTime t).
Proof. reflexivity. Qed.

Lemma DayWithinYear_range t :
  0 <= DayWithinYear t < 365 + InLeapYear t.
Proof.
  rewrite InLeapYear_leapDays, <- DaysInYear_leapDays.
  unfold DayWithinYear, YearFromTime.
  pose proof (YearFromDay_spec (Day t)) as H.
  rewrite DayFromYear_succ in H. lia.
Qed.

Lemma MonthOfDay_bounds l d :
  l = 0 \/ l = 1 -> 0 <= d < 365 + l ->
  0 <= MonthOfDay l d <= 11 /\
  monthStart l (MonthOfDay l d) <= d < monthStart l (MonthOfDay l d + 1).
Proof.
  intros [L|L] H; subst l; unfold MonthOfDay; split_ltb; cbn; lia.
Qed.

Lemma MonthOfDay_unique l d m :
  l = 0 \/ l = 1 -> 0 <= m <= 11 ->
  monthStart l m <= d < monthStart l (m + 1) -> MonthOfDay l d = m.
Proof.
  intros L Hm H.
  destruct L; subst l; month_cases m; cbn in H; unfold MonthOfDay; split_ltb; lia.
Qed.

Lemma monthStart_range l m :
  l = 0 \/ l = 1 -> 0 <= m <= 11 ->
  0 <= monthStart l m /\ monthStart l (m + 1) <= 365 + l /\ 28 <= DaysInMonth l m.
Proof.
  intros L Hm. unfold DaysInMonth.
  destruct L; subst l; month_cases m; cbn; lia.
Qed.

Lemma MonthFromTime_range t : 0 <= MonthFromTime t <= 11.
Proof.
  apply MonthOfDay_bounds.
  - apply leapDays_cases.
  - apply DayWithinYear_range.
Qed.

Lemma DateFromTime_range t :
  1 <= DateFromTime t <= DaysInMonth (InLeapYear t) (MonthFromTime t).
Proof.
  destruct (MonthOfDay_bounds (InLeapYear t) (DayWithinYear t)
              (leapDays_cases _) (DayWithinYear_range t)) as [_ B].
  unfold DateFromTime, DaysInMonth, MonthFromTime. lia.
Qed.

Lemma Day_MakeDate d tod :
  0 <= tod < msPerDay ->
  Day (d * msPerDay + tod) = d /\ TimeWithinDay (d * msPerDay + tod) = tod.
Proof. unfold Day, TimeWithinDay, msPerDay. intros. zlia. Qed.

Lemma TimeWithinDay_range t : 0 <= TimeWithinDay t < msPerDay.
Proof. unfold TimeWithinDay, msPerDay. zlia. Qed.

Lemma Day_split t : t = Day t * msPerDay + TimeWithinDay t.
Proof. unfold Day, TimeWithinDay, msPerDay. zlia. Qed.

(** The calendar fields of the time value that [MakeDate] and [MakeDay]
    assemble from a year, a month, a day of the month and a time of day. *)
Lemma fields_of_date y m d tod :
  0 <= m <= 11 -> 1 <= d <= DaysInMonth (leapDays y) m ->
  0 <= tod < msPerDay ->
  let t := (DayFromYear y + monthStart (leapDays y) m + d - 1) * msPerDay + tod in
  YearFromTime t = y /\ MonthFromTime t = m /\ DateFromTime t = d /\
  TimeWithinDay t = tod.
Proof.
  intros Hm Hd Ht t.
  destruct (monthStart_range (leapDays y) m (leapDays_cases y) Hm) as (S0 & S1 & _).
  unfold DaysInMonth in Hd.
  destruct (Day_MakeDate (DayFromYear y + monthStart (leapDays y) m + d - 1) tod Ht)
    as [D W]. fold t in D, W.
  assert (Y : YearFromTime t = y).
  { unfold YearFromTime. rewrite D. apply YearFromDay_unique.
    rewrite DayFromYear_succ, DaysInYear_leapDays. lia. }
  assert (K : DayWithinYear t = monthStart (leapDays y) m + d - 1)
    by (unfold DayWithinYear; rewrite Y, D; lia).
  assert (Mo : MonthFromTime t = m).
  { unfold MonthFromTime. rewrite InLeapYear_leapDays, Y, K.
    apply MonthOfDay_unique; [apply leapDays_cases | lia | lia]. }
  repeat split; auto.
  unfold DateFromTime. rewrite Mo, InLeapYear_leapDays, Y, K. lia.
Qed.

(* ------------------------------------------------------------------ *)
(** * [getAdjustedDate] *)

Lemma adjustedAmount_signed operation a :
  (if String.eqb (default "add" operation) "add" then Int a else num_neg (Int a))
  = Int (signed operation a).
Proof. unfold signed. destruct (String.eqb _ _); reflexivity. Qed.

Lemma MakeDay_in_month y m dt :
  0 <= m <= 11 ->
  MakeDay (Int y) (Int m) (Int dt)
  = Some (DayFromYear y + monthStart (leapDays y) m + dt - 1).
Proof.
  intros Hm. unfold MakeDay.
  replace (m / 12) with 0 by zlia. replace (m mod 12) with m by zlia.
  rewrite Z.add_0_r. reflexivity.
Qed.

(** Moving the day of the month moves the local time by whole days. *)
Lemma setDate_shift h t0 s :
  setDate h (Some t0) (num_add (getDate h (Some t0)) (Int s))
  = TimeClip (UTC h (LocalTime h t0 + s * msPerDay)).
Proof.
  unfold setDate, getDate, num_add. set (l := LocalTime h t0).
  rewrite MakeDay_in_month by apply MonthFromTime_range.
  unfold MakeDate, clip_local. f_equal. f_equal.
  pose proof (Day_split l) as Hl.
  unfold DateFromTime, DayWithinYear. rewrite InLeapYear_leapDays.
  unfold msPerDay in *. lia.
Qed.

(** Setting the year keeps the month, the day of the month and the time
    of day, except that 29 February becomes 1 March in a common year. *)
Lemma setFullYear_shift h t0 s :
  let l := LocalTime h t0 in
  exists l',
    setFullYear h (Some t0) (num_add (getFullYear h (Some t0)) (Int s))
    = TimeClip (UTC h l') /\
    YearFromTime l' = YearFromTime l + s /\
    TimeWithinDay l' = TimeWithinDay l /\
    if leap_day_lost l s
    then MonthFromTime l' = 2 /\ DateFromTime l' = 1
    else MonthFromTime l' = MonthFromTime l /\ DateFromTime l' = DateFromTime l.
Proof.
  intros l. unfold setFullYear, getFullYear, num_add. fold l.
  pose proof (MonthFromTime_range l) as Hm.
  pose proof (DateFromTime_range l) as Hd.
  pose proof (TimeWithinDay_range l) as Ht.
  rewrite MakeDay_in_month by exact Hm.
  unfold MakeDate, clip_local, leap_day_lost.
  set (y := YearFromTime l + s). set (m := MonthFromTime l) in *.
  set (d := DateFromTime l) in *. set (tod := TimeWithinDay l) in *.
  eexists. split; [reflexivity|].
  rewrite InLeapYear_leapDays in Hd.
  clearbody y m d tod.
  destruct (Z.eqb_spec m 1) as [M1|M1];
    [destruct (Z.eqb_spec d 29) as [D29|D29];
     [destruct (isLeap y) eqn:L|]|]; cbn [andb negb].
  - (* 29 February to 29 February *)
    destruct (fields_of_date y m d tod) as (Y & Mo & Da & W); auto.
    rewrite M1, D29. unfold leapDays. rewrite L. cbn. lia.
  - (* 29 February to 1 March *)
    destruct (fields_of_date y 2 1 tod) as (Y & Mo & Da & W); auto; try lia.
    { destruct (leapDays_cases y) as [E|E]; rewrite E; cbn; lia. }
    replace (DayFromYear y + monthStart (leapDays y) m + d - 1)
      with (DayFromYear y + monthStart (leapDays y) 2 + 1 - 1); auto.
    rewrite M1, D29. unfold leapDays. rewrite L. cbn. lia.
  - destruct (fields_of_date y m d tod) as (Y & Mo & Da & W); auto.
    rewrite M1 in *. unfold DaysInMonth in *.
    destruct (leapDays_cases (YearFromTime l)) as [E|E]; rewrite E in Hd;
      destruct (leapDays_cases y) as [E'|E']; rewrite E'; cbn in *; lia.
  - destruct (fields_of_date y m d tod) as (Y & Mo & Da & W); auto.
    unfold DaysInMonth in *.
    destruct (leapDays_cases (YearFromTime l)) as [E|E]; rewrite E in Hd;
      destruct (leapDays_cases y) as [E'|E']; rewrite E';
      month_cases m; cbn in *; lia.
Qed.

(** C7, as the code has it.  With [l] the local time of the current
    moment and [s] the signed amount: the unit "days" gives the moment
    whose local time is [l] plus [s] whole days, the unit "years" gives
    the moment whose local time has the year of [l] plus [s] and the
    month, day of the month and time of day of [l] (29 February becomes
    1 March when the target year has none), and any other unit gives the
    current moment.  In all cases the result goes through [TimeClip]: a
    moment further than 8.64e15 ms from the epoch is an Invalid Date. *)
Theorem getAdjustedDate_shift (h : Host) (a : Z) (type operation : option string) :
  let l := LocalTime h (now h) in
  let s := signed operation a in
  (default "days" type = "days" ->
   getAdjustedDate h (Int a) type operation = TimeClip (UTC h (l + s * msPerDay)))
  /\
  (default "days" type = "years" ->
   exists l',
     getAdjustedDate h (Int a) type operation = TimeClip (UTC h l') /\
     YearFromTime l' = YearFromTime l + s /\
     TimeWithinDay l' = TimeWithinDay l /\
     if leap_day_lost l s
     then MonthFromTime l' = 2 /\ DateFromTime l' = 1
     else MonthFromTime l' = MonthFromTime l /\ DateFromTime l' = DateFromTime l)
  /\
  (default "days" type <> "days" -> default "days" type <> "years" ->
   getAdjustedDate h (Int a) type operation = Some (now h)).
Proof.
  intros l s. unfold getAdjustedDate.
  rewrite adjustedAmount_signed. fold s.
  repeat split.
  - intros E. rewrite E. cbn [String.eqb Ascii.eqb Bool.eqb].
    apply setDate_shift.
  - intros E. rewrite E. rewrite String.eqb_refl.
    apply setFullYear_shift.
  - intros Nd Ny.
    destruct (String.eqb_spec (default "days" type) "years"); [contradiction|].
    destruct (String.eqb_spec (default "days" type) "days"); [contradiction|].
    reflexivity.
Qed.

Lemma getAdjustedDate_shift_witness :
  getAdjustedDate RefHost.host (Int 5) (Some "days") (Some "add")
  = Some (1684161000000 + 5 * 86400000) /\
  (exists l',
      getAdjustedDate RefHost.host (Int 2) (Some "years") (Some "subtract")
      = TimeClip (UTC RefHost.host l') /\
      YearFromTime l' = 2021 /\ MonthFromTime l' = 4 /\ DateFromTime l' = 15) /\
  getAdjustedDate RefHost.host (Int 2) (Some "months") (Some "subtract")
  = Some 1684161000000.
Proof.
  pose proof (getAdjustedDate_shift RefHost.host 5 (Some "days") (Some "add"))
    as (D & _ & _).
  pose proof (getAdjustedDate_shift RefHost.host 2 (Some "years") (Some "subtract"))
    as (_ & Y & _).
  pose proof (getAdjustedDate_shift RefHost.host 2 (Some "months") (Some "subtract"))
    as (_ & _ & O).
  split; [|split].
  - rewrite D; reflexivity.
  - destruct (Y eq_refl) as (l' & E & Hy & _ & Hmd).
    exists l'. split; [exact E|]. split; [rewrite Hy; reflexivity|].
    exact Hmd.
  - apply O; discriminate.
Defined.

(** C7 as stated fails for amounts that leave the range of [Date]:
    a thousand million days from now is an Invalid Date, not a date. *)
Lemma getAdjustedDate_out_of_range :
  ~ exists t,
      getAdjustedDate RefHost.host (Int 1000000000) (Some "days") (Some "add")
      = Some t.
Proof. intros [t H]. vm_compute in H. discriminate. Qed.

(* ------------------------------------------------------------------ *)
(** * Input normalisation of the date and time formatters *)

Lemma getFormattedTimeString_eq h v unix :
  getFormattedTimeString h v unix
  = (d <- dateObj_of h v (default false unix) ;; Normal (hh_mm_ss d)).
Proof. reflexivity. Qed.

Lemma getFormattedDateString_throws h v options format unix e :
  dateObj_of h v (default false unix) = Throw e ->
  getFormattedDateString h v options format unix = Throw e.
Proof.
  unfold getFormattedDateString, dateObj_of. cbv zeta.
  intros H. rewrite H. reflexivity.
Qed.

Lemma getFormattedTimeString_throws h v unix e :
  dateObj_of h v (default false unix) = Throw e ->
  getFormattedTimeString h v unix = Throw e.
Proof. rewrite getFormattedTimeString_eq. intros H. rewrite H. reflexivity. Qed.

(** C6.  A value that is not a [Date], not a string, and not a number
    passed together with the unix flag makes both formatters throw
    [Error("Invalid date input")]. *)
Theorem invalid_input_rejected h (v : value) options format unix :
  instanceof_Date v = false ->
  typeof v <> "string" ->
  ~ (typeof v = "number" /\ default false unix = true) ->
  getFormattedDateString h v options format unix
  = Throw (Error "Invalid date input") /\
  getFormattedTimeString h v unix = Throw (Error "Invalid date input").
Proof.
  intros HD HS HN.
  assert (E : dateObj_of h v (default false unix)
              = Throw (Error "Invalid date input")).
  { unfold dateObj_of. rewrite HD.
    destruct (String.eqb_spec (typeof v) "string"); [contradiction|].
    destruct (String.eqb_spec (typeof v) "number"); [|reflexivity].
    destruct (default false unix); [|reflexivity].
    exfalso. apply HN. split; auto. }
  split.
  - apply getFormattedDateString_throws, E.
  - apply getFormattedTimeString_throws, E.
Qed.

Lemma invalid_input_rejected_witness :
  getFormattedDateString RefHost.host (VBoolean true) None None None
  = Throw (Error "Invalid date input") /\
  getFormattedTimeString RefHost.host (VBoolean true) None
  = Throw (Error "Invalid date input").
Proof.
  apply (invalid_input_rejected RefHost.host (VBoolean true) None None None).
  - reflexivity.
  - discriminate.
  - intros [H _]. discriminate.
Defined.

(** C3 as stated fails: a plain number without the unix flag is not
    formatted, it is rejected. *)
Lemma plain_number_rejected :
  ~ (exists s,
        getFormattedDateString RefHost.host (VNumber (Int 1684161000000))
                               None None (Some false) = Normal s) /\
  ~ (exists s,
        getFormattedTimeString RefHost.host (VNumber (Int 1684161000000)) None
        = Normal s).
Proof. split; intros [s H]; vm_compute in H; discriminate. Qed.

(** C3, as the code has it.  A number is accepted only together with
    the unix flag: with the flag false or left out both formatters throw
    [Error("Invalid date input")], and with the flag set the number
    counts seconds, that is, the result is that of the [Date] built
    from the number times 1000. *)
Theorem number_needs_unix_flag h (n : number) options format :
  (getFormattedDateString h (VNumber n) options format None
   = Throw (Error "Invalid date input") /\
   getFormattedDateString h (VNumber n) options format (Some false)
   = Throw (Error "Invalid date input") /\
   getFormattedTimeString h (VNumber n) None
   = Throw (Error "Invalid date input") /\
   getFormattedTimeString h (VNumber n) (Some false)
   = Throw (Error "Invalid date input")) /\
  (getFormattedDateString h (VNumber n) options format (Some true)
   = getFormattedDateString h (VDate (Date_of_number (num_mul n (Int 1000))))
                            options format None /\
   getFormattedTimeString h (VNumber n) (Some true)
   = getFormattedTimeString h (VDate (Date_of_number (num_mul n (Int 1000)))) None).
Proof. repeat split. Qed.

(** C8 as stated fails: text that does not parse as a date is not
    rejected, both formatters return a string. *)
Lemma garbage_is_formatted :
  getFormattedDateString RefHost.host (VString "garbage") None None None
  = Normal "Invalid Date" /\
  getFormattedTimeString RefHost.host (VString "garbage") None
  = Normal "NaN:NaN:NaN GMT".
Proof. split; reflexivity. Qed.

Lemma Invalid_Date_unchanged :
  replace re_day_mon3_year "$2 $1 $3" "Invalid Date" = "Invalid Date" /\
  replace_with re_day_mon34_year
    (fun _ cs =>
       group_text 1 cs ++ chars " " ++ slice0 3 (group_text 2 cs)
                  ++ chars " " ++ group_text 3 cs) "Invalid Date"
  = "Invalid Date" /\
  replace re_slashes "$3-$2-$1" "Invalid Date" = "Invalid Date".
Proof. repeat split. Qed.

(** C8, as the code has it.  For a string that the host's [Date.parse]
    does not recognise no error is raised: the date formatter returns
    "Invalid Date", whatever the options and the format tag, and the
    time formatter returns "NaN:NaN:NaN GMT". *)
Theorem unparseable_string_formatted h (s : string) options format unix :
  Date_parse h s = None ->
  getFormattedDateString h (VString s) options format unix
  = Normal "Invalid Date" /\
  getFormattedTimeString h (VString s) unix = Normal "NaN:NaN:NaN GMT".
Proof.
  intros H.
  destruct Invalid_Date_unchanged as (R1 & R2 & R3).
  split.
  - unfold getFormattedDateString. cbv zeta.
    cbn [typeof instanceof_Date String.eqb Ascii.eqb Bool.eqb andb orb new_Date bind].
    rewrite H. cbn [bind toLocaleDateString_enGB].
    destruct (String.eqb (default "YYYY-MM-DD" format) "DD MMM YYYY") eqn:F1;
      [|destruct (String.eqb (default "YYYY-MM-DD" format) "MMM DD YYYY") eqn:F2];
      cbn [orb]; rewrite ?R1, ?R2, ?R3; reflexivity.
  - rewrite getFormattedTimeString_eq. unfold dateObj_of.
    cbn [typeof instanceof_Date String.eqb Ascii.eqb Bool.eqb andb orb new_Date bind].
    rewrite H. reflexivity.
Qed.

Lemma unparseable_string_formatted_witness :
  getFormattedDateString RefHost.host (VString "garbage") None
                         (Some "MMM DD YYYY") None
  = Normal "Invalid Date" /\
  getFormattedTimeString RefHost.host (VString "garbage") None
  = Normal "NaN:NaN:NaN GMT".
Proof.
  apply (unparseable_string_formatted RefHost.host "garbage").
  reflexivity.
Defined.

(* ------------------------------------------------------------------ *)
(** * [getFormattedTimeString] *)

Lemma pad_ok_below_100 : forallb pad_ok (seq 0 100) = true.
Proof. vm_compute. reflexivity. Qed.

(** [n.toString().padStart(2, "0")] writes a number below 100 with
    exactly two digits. *)
Lemma padStart_two_digits n :
  0 <= n < 100 -> padStart 2 "0" (Number_toString (Int n)) = two_digits n.
Proof.
  intros H.
  pose proof (proj1 (forallb_forall pad_ok (seq 0 100)) pad_ok_below_100
                (Z.to_nat n)) as P.
  unfold pad_ok in P. rewrite Z2Nat.id in P by lia.
  apply String.eqb_eq, P, in_seq. lia.
Qed.

Lemma HourFromTime_range t : 0 <= HourFromTime t < 24.
Proof. unfold HourFromTime. zlia. Qed.

Lemma MinFromTime_range t : 0 <= MinFromTime t < 60.
Proof. unfold MinFromTime. zlia. Qed.

Lemma SecFromTime_range t : 0 <= SecFromTime t < 60.
Proof. unfold SecFromTime. zlia. Qed.

(** C9 as stated fails in its example: 1684159800 seconds after the
    epoch is ten past two, not half past two. *)
Lemma unix_1684159800_is_14_10 :
  getFormattedTimeString RefHost.host (VNumber (Int 1684159800)) (Some true)
  <> Normal "14:30:00 GMT".
Proof. vm_compute. discriminate. Qed.

(** C9, as the code has it.  Whenever the input normalises to a valid
    [Date] with time value [t], the time formatter returns the two-digit
    hour, minute and second of [t] in UTC, whatever the local time zone
    of the host, separated by colons and followed by " GMT".  The
    unix-seconds input 1684159800 gives "14:10:00 GMT"; it is 1684161000
    that gives "14:30:00 GMT". *)
Theorem getFormattedTimeString_utc (h : Host) :
  (forall (v : value) (unix : option bool) (t : Z),
      dateObj_of h v (default false unix) = Normal (Some t) ->
      getFormattedTimeString h v unix
      = Normal (two_digits (HourFromTime t) ++ ":" ++
                two_digits (MinFromTime t) ++ ":" ++
                two_digits (SecFromTime t) ++ " GMT")%string /\
      0 <= HourFromTime t < 24 /\
      0 <= MinFromTime t < 60 /\
      0 <= SecFromTime t < 60) /\
  getFormattedTimeString h (VNumber (Int 1684159800)) (Some true)
  = Normal "14:10:00 GMT" /\
  getFormattedTimeString h (VNumber (Int 1684161000)) (Some true)
  = Normal "14:30:00 GMT".
Proof.
  split; [|split; reflexivity].
  intros v unix t H.
  pose proof (HourFromTime_range t) as Hh.
  pose proof (MinFromTime_range t) as Hm.
  pose proof (SecFromTime_range t) as Hs.
  repeat split; try lia.
  rewrite getFormattedTimeString_eq, H. cbn [bind].
  unfold hh_mm_ss, getUTCHours, getUTCMinutes, getUTCSeconds.
  rewrite !padStart_two_digits by lia. reflexivity.
Qed.

Lemma getFormattedTimeString_utc_witness :
  getFormattedTimeString RefHost.host (VString "2023-05-15T14:30:00Z") None
  = Normal "14:30:00 GMT".
Proof.
  destruct (getFormattedTimeString_utc RefHost.host) as [G _].
  destruct (G (VString "2023-05-15T14:30:00Z") None 1684161000000) as [E _].
  - reflexivity.
  - rewrite E. reflexivity.
Defined.

(* ------------------------------------------------------------------ *)
(** * [formatMoney] *)

(** C5.  Whatever the precision table and whatever the number formatter
    of the host does, [formatMoney] completes normally; when building
    the formatter throws, the result is the number's own [toString()]. *)
Theorem formatMoney_never_throws
        (precision : string -> option number)
        (NumberFormat : string -> option number -> option number
                        -> completion (number -> string))
        (n : number) (options : option FormatMoneyOptions) :
  (exists s, formatMoney precision NumberFormat n options = Normal s) /\
  (forall e,
      (let o := default no_options options in
       NumberFormat (default "en-US" (locale o))
                    (fractionDigits precision o) (fractionDigits precision o))
      = Throw e ->
      formatMoney precision NumberFormat n options = Normal (Number_toString n)).
Proof.
  unfold formatMoney. cbv zeta.
  destruct (NumberFormat _ _ _) as [f|e0]; cbn [bind try_catch]; split.
  - eexists; reflexivity.
  - discriminate.
  - eexists; reflexivity.
  - reflexivity.
Qed.

Lemma formatMoney_never_throws_witness :
  formatMoney RefHost.precision RefHost.NumberFormat (Int 1234567)
              (Some {| currency := Some "BTC"; decimalPlaces := None;
                       locale := Some "no such locale" |})
  = Normal "1234567" /\
  formatMoney RefHost.precision RefHost.NumberFormat (Int (10 ^ 21))
              (Some {| currency := None; decimalPlaces := None;
                       locale := Some "no such locale" |})
  = Normal "1e+21".
Proof.
  split.
  - apply (proj2 (formatMoney_never_throws RefHost.precision RefHost.NumberFormat
                    (Int 1234567)
                    (Some {| currency := Some "BTC"; decimalPlaces := None;
                             locale := Some "no such locale" |}))
             (RangeError "Incorrect locale information provided")).
    reflexivity.
  - transitivity (Normal (Number_toString (Int (10 ^ 21)))).
    + apply (proj2 (formatMoney_never_throws RefHost.precision
                      RefHost.NumberFormat (Int (10 ^ 21))
                      (Some {| currency := None; decimalPlaces := None;
                               locale := Some "no such locale" |}))
               (RangeError "Incorrect locale information provided")).
      reflexivity.
    + vm_compute. reflexivity.
Defined.

(** What [toString()] gives here: digits up to 2^53, at most 17
    significant digits beyond, exponent form from 10^21 on. *)
Example Number_toString_examples :
  map Number_toString
      [Int 0; Int (-45); Int (2 ^ 53); Int (2 ^ 53 + 1); Int (2 ^ 60);
       Int (10 ^ 21 - 1); Int (15 * 10 ^ 20); Int (2 ^ 70); Int (- 10 ^ 22);
       Int (2 ^ 1024 - 2 ^ 971); Int (2 ^ 1024); NaN; Infinity true]
  = ["0"; "-45"; "9007199254740992"; "9007199254740992";
     "1152921504606847000"; "1e+21"; "1.5e+21"; "1.1805916207174113e+21";
     "-1e+22"; "1.7976931348623157e+308"; "Infinity"; "NaN"; "-Infinity"].
Proof. vm_compute. reflexivity. Qed.

(** A non-zero [decimalPlaces] wins, and without [decimalPlaces] the
    precision of the currency, or of "USD", is used. *)
Lemma fractionDigits_explicit precision o d :
  decimalPlaces o = Some d -> truthy d = true ->
  fractionDigits precision o = Some d.
Proof. unfold fractionDigits, or_else. intros -> ->. reflexivity. Qed.

Lemma fractionDigits_currency precision o c :
  decimalPlaces o = None -> currency o = Some c ->
  fractionDigits precision o = precision c.
Proof. unfold fractionDigits, or_else. intros -> ->. reflexivity. Qed.

Lemma fractionDigits_fallback precision o :
  decimalPlaces o = None -> currency o = None ->
  fractionDigits precision o = precision "USD".
Proof. unfold fractionDigits, or_else. intros -> ->. reflexivity. Qed.

(** C2 at [decimalPlaces: 0].  The explicit 0 does not win: [0 || x] is
    [x], so the precision of the currency is used and 1234 is printed
    as "1,234.00", not "1,234". *)
Theorem decimalPlaces_zero_is_ignored :
  (forall precision o,
      decimalPlaces o = Some (Int 0) ->
      fractionDigits precision o = precision (default "USD" (currency o))) /\
  formatMoney RefHost.precision RefHost.NumberFormat (Int 1234)
              (Some {| currency := None; decimalPlaces := Some (Int 0);
                       locale := None |})
  = Normal "1,234.00" /\
  formatMoney RefHost.precision RefHost.NumberFormat (Int 1234)
              (Some {| currency := None; decimalPlaces := Some (Int 1);
                       locale := None |})
  = Normal "1,234.0".
Proof.
  split; [|split; reflexivity].
  intros precision o H. unfold fractionDigits, or_else. rewrite H. reflexivity.
Qed.

Lemma decimalPlaces_zero_is_ignored_witness :
  fractionDigits RefHost.precision
                 {| currency := Some "BTC"; decimalPlaces := Some (Int 0);
                    locale := None |}
  = Some (Int 8).
Proof.
  apply (proj1 decimalPlaces_zero_is_ignored RefHost.precision
               {| currency := Some "BTC"; decimalPlaces := Some (Int 0);
                  locale := None |}).
  reflexivity.
Defined.

(* ------------------------------------------------------------------ *)
(** * [getFormattedDateString] *)

(** What the matcher asks of a digit, of a letter and of the two
    separators. *)
Ltac all_ascii c := destruct c as [[] [] [] [] [] [] [] []].

Lemma digit_facts c :
  is_digit c = true ->
  is_word c = true /\ Ascii.eqb " " c = false /\ Ascii.eqb "/" c = false.
Proof. all_ascii c; vm_compute; intuition congruence. Qed.

Lemma letter_facts c :
  is_letter c = true ->
  is_word c = true /\ is_digit c = false /\ Ascii.eqb " " c = false.
Proof. all_ascii c; vm_compute; intuition congruence. Qed.

Lemma separator_facts :
  is_digit " " = false /\ is_digit "/" = false.
Proof. split; reflexivity. Qed.

(** Running the matcher on a text whose characters are known only by
    their class: unfold one step, rewrite the tests that are known. *)
Ltac note_digit H :=
  let W := fresh "W" in let S := fresh "S" in let L := fresh "L" in
  destruct (digit_facts _ H) as (W & S & L).

Ltac note_letter H :=
  let W := fresh "W" in let N := fresh "N" in let S := fresh "S" in
  destruct (letter_facts _ H) as (W & N & S).

Ltac use_facts :=
  repeat match goal with
         | H : ?t = true |- context [?t] => rewrite H
         | H : ?t = false |- context [?t] => rewrite H
         end.

Ltac run_matcher :=
  repeat (progress (cbn [exec match_here m rep cls_test andb room option_map pred];
                    use_facts; rewrite ?Ascii.eqb_refl)).

Ltac matcher_facts :=
  repeat match goal with
         | H : is_digit _ = true |- _ => note_digit H; revert H
         | H : is_letter _ = true |- _ => note_letter H; revert H
         end;
  intros;
  destruct separator_facts as [? ?].

(** The three replacements on the texts that [toLocaleDateString]
    produces. *)
Lemma reorder_three d1 d2 c1 c2 c3 y1 y2 y3 y4 :
  is_digit d1 = true -> is_digit d2 = true ->
  is_letter c1 = true -> is_letter c2 = true -> is_letter c3 = true ->
  is_digit y1 = true -> is_digit y2 = true -> is_digit y3 = true -> is_digit y4 = true ->
  replace re_day_mon3_year "$2 $1 $3"
          (str [d1; d2; " "%char; c1; c2; c3; " "%char; y1; y2; y3; y4])
  = str [c1; c2; c3; " "%char; d1; d2; " "%char; y1; y2; y3; y4].
Proof.
  intros. matcher_facts.
  unfold replace, replace_with. rewrite chars_str.
  unfold re_day_mon3_year. run_matcher. reflexivity.
Qed.

Lemma reorder_four d1 d2 c1 c2 c3 c4 y1 y2 y3 y4 :
  is_digit d1 = true -> is_digit d2 = true ->
  is_letter c1 = true -> is_letter c2 = true -> is_letter c3 = true -> is_letter c4 = true ->
  is_digit y1 = true -> is_digit y2 = true -> is_digit y3 = true -> is_digit y4 = true ->
  replace re_day_mon3_year "$2 $1 $3"
          (str [d1; d2; " "%char; c1; c2; c3; c4; " "%char; y1; y2; y3; y4])
  = str [d1; d2; " "%char; c1; c2; c3; c4; " "%char; y1; y2; y3; y4].
Proof.
  intros. matcher_facts.
  unfold replace, replace_with. rewrite chars_str.
  unfold re_day_mon3_year. run_matcher. reflexivity.
Qed.

Lemma cut_three d1 d2 c1 c2 c3 y1 y2 y3 y4 :
  is_digit d1 = true -> is_digit d2 = true ->
  is_letter c1 = true -> is_letter c2 = true -> is_letter c3 = true ->
  is_digit y1 = true -> is_digit y2 = true -> is_digit y3 = true -> is_digit y4 = true ->
  replace_with re_day_mon34_year cut_month
          (str [d1; d2; " "%char; c1; c2; c3; " "%char; y1; y2; y3; y4])
  = str [d1; d2; " "%char; c1; c2; c3; " "%char; y1; y2; y3; y4].
Proof.
  intros. matcher_facts.
  unfold replace_with. rewrite chars_str.
  unfold re_day_mon34_year. run_matcher. reflexivity.
Qed.

Lemma cut_four d1 d2 c1 c2 c3 c4 y1 y2 y3 y4 :
  is_digit d1 = true -> is_digit d2 = true ->
  is_letter c1 = true -> is_letter c2 = true -> is_letter c3 = true -> is_letter c4 = true ->
  is_digit y1 = true -> is_digit y2 = true -> is_digit y3 = true -> is_digit y4 = true ->
  replace_with re_day_mon34_year cut_month
          (str [d1; d2; " "%char; c1; c2; c3; c4; " "%char; y1; y2; y3; y4])
  = str [d1; d2; " "%char; c1; c2; c3; " "%char; y1; y2; y3; y4].
Proof.
  intros. matcher_facts.
  unfold replace_with. rewrite chars_str.
  unfold re_day_mon34_year. run_matcher. reflexivity.
Qed.

Lemma slashes_untouched d1 d2 m1 m2 y1 y2 y3 y4 :
  is_digit d1 = true -> is_digit d2 = true ->
  is_digit m1 = true -> is_digit m2 = true ->
  is_digit y1 = true -> is_digit y2 = true -> is_digit y3 = true -> is_digit y4 = true ->
  replace_with re_day_mon34_year cut_month
          (str [d1; d2; "/"%char; m1; m2; "/"%char; y1; y2; y3; y4])
  = str [d1; d2; "/"%char; m1; m2; "/"%char; y1; y2; y3; y4].
Proof.
  intros. matcher_facts.
  assert (Ascii.eqb " " "/" = false) by reflexivity.
  unfold replace_with. rewrite chars_str.
  unfold re_day_mon34_year. run_matcher. reflexivity.
Qed.

Lemma slashes_to_iso d1 d2 m1 m2 y1 y2 y3 y4 :
  is_digit d1 = true -> is_digit d2 = true ->
  is_digit m1 = true -> is_digit m2 = true ->
  is_digit y1 = true -> is_digit y2 = true -> is_digit y3 = true -> is_digit y4 = true ->
  replace re_slashes "$3-$2-$1"
          (str [d1; d2; "/"%char; m1; m2; "/"%char; y1; y2; y3; y4])
  = str [y1; y2; y3; y4; "-"%char; m1; m2; "-"%char; d1; d2].
Proof.
  intros. matcher_facts.
  unfold replace, replace_with. rewrite chars_str.
  unfold re_slashes. run_matcher. reflexivity.
Qed.

Lemma digit_char_is_digit k : 0 <= k <= 9 -> is_digit (digit_char k) = true.
Proof.
  intros H.
  assert (k = 0 \/ k = 1 \/ k = 2 \/ k = 3 \/ k = 4 \/ k = 5 \/ k = 6 \/
          k = 7 \/ k = 8 \/ k = 9) as K by lia.
  repeat (destruct K as [K|K]; [subst k; reflexivity|]). subst k. reflexivity.
Qed.

Lemma two_digits_chars n :
  two_digits n = str [digit_char (n / 10); digit_char (n mod 10)].
Proof. reflexivity. Qed.

Lemma Z_toString_four y :
  1000 <= y <= 9999 ->
  Z_toString y
  = str [digit_char (y / 1000); digit_char (y / 100 mod 10);
         digit_char (y / 10 mod 10); digit_char (y mod 10)].
Proof.
  intros H. unfold Z_toString, digits.
  destruct (Z.ltb_spec y 0); [lia|].
  assert (L : 9 <= Z.log2 y).
  { change 9 with (Z.log2 512). apply Z.log2_le_mono. lia. }
  destruct (Z.to_nat (Z.log2 y)) as [|[|[|f]]] eqn:E; try lia.
  cbn [digits_fuel].
  destruct (Z.ltb_spec y 10); [lia|].
  destruct (Z.ltb_spec (y / 10) 10); [zlia|].
  destruct (Z.ltb_spec (y / 10 / 10) 10); [zlia|].
  destruct (Z.ltb_spec (y / 10 / 10 / 10) 10); [|zlia].
  replace (y / 10 / 10 / 10 mod 10) with (y / 1000) by zlia.
  replace (y / 10 / 10 mod 10) with (y / 100 mod 10) by zlia.
  reflexivity.
Qed.

Lemma pad2_below_100 :
  forallb (fun n => String.eqb (pad2 (Z.of_nat n)) (two_digits (Z.of_nat n)))
          (seq 0 100) = true.
Proof. vm_compute. reflexivity. Qed.

Lemma pad2_two_digits n : 0 <= n < 100 -> pad2 n = two_digits n.
Proof.
  intros H.
  pose proof (proj1 (forallb_forall _ (seq 0 100)) pad2_below_100
                (Z.to_nat n)) as P.
  cbv beta in P. rewrite Z2Nat.id in P by lia.
  apply String.eqb_eq, P, in_seq. lia.
Qed.

Lemma toLocaleDateString_text h o t0 :
  other_hints o = [] ->
  toLocaleDateString_enGB h
    (set_year numeric (set_month short (set_day two_digit o))) (Some t0)
  = Normal (pad2 (DateFromTime (LocalTime h t0)) ++ " " ++
            month_abbr h (MonthFromTime (LocalTime h t0)) ++ " " ++
            Z_toString (year_of_era (YearFromTime (LocalTime h t0))))%string.
Proof.
  intros H. unfold toLocaleDateString_enGB.
  cbn [other_hints set_year set_month set_day]. rewrite H. reflexivity.
Qed.

Lemma toLocaleDateString_numeric h o t0 :
  other_hints o = [] ->
  toLocaleDateString_enGB h
    (set_day two_digit (set_month two_digit (set_year numeric o))) (Some t0)
  = Normal (pad2 (DateFromTime (LocalTime h t0)) ++ "/" ++
            pad2 (MonthFromTime (LocalTime h t0) + 1) ++ "/" ++
            Z_toString (year_of_era (YearFromTime (LocalTime h t0))))%string.
Proof.
  intros H. unfold toLocaleDateString_enGB.
  cbn [other_hints set_year set_month set_day]. rewrite H. reflexivity.
Qed.

(** The result of the date formatter on a valid date with a four-digit
    year, in a month that the host abbreviates with three or four
    letters, for options without other hints. *)
Lemma getFormattedDateString_layout h v options format unix t0 :
  let l := LocalTime h t0 in
  let abbr := month_abbr h (MonthFromTime l) in
  plain options ->
  dateObj_of h v (default false unix) = Normal (Some t0) ->
  1000 <= YearFromTime l <= 9999 ->
  letters abbr = true ->
  (String.length abbr = 3 \/ String.length abbr = 4)%nat ->
  getFormattedDateString h v options format unix
  = Normal (layout (default "YYYY-MM-DD" format)
                   (two_digits (DateFromTime l))
                   (two_digits (MonthFromTime l + 1))
                   abbr
                   (Z_toString (YearFromTime l))).
Proof.
  intros l abbr Hp Hd Hy Hl Hn.
  unfold getFormattedDateString. cbv zeta.
  change (if String.eqb (typeof v) "number" && default false unix
          then Normal (new_Date h (times_1000 v))
          else if String.eqb (typeof v) "string" || instanceof_Date v
               then Normal (new_Date h v)
               else Throw (Error "Invalid date input"))
    with (dateObj_of h v (default false unix)).
  rewrite Hd. cbn [bind].
  rewrite !toLocaleDateString_text, !toLocaleDateString_numeric by exact Hp.
  cbn [bind]. fold l. fold abbr.
  pose proof (DateFromTime_range l) as RD.
  pose proof (MonthFromTime_range l) as RM.
  assert (RD' : 1 <= DateFromTime l <= 31).
  { destruct (monthStart_range (InLeapYear l) (MonthFromTime l)
                (leapDays_cases _) RM) as (_ & _ & _).
    split; [lia|]. eapply Z.le_trans; [apply RD|].
    unfold DaysInMonth. generalize (MonthFromTime l) RM. intros m Hm.
    destruct (leapDays_cases (YearFromTime l)) as [E|E];
      rewrite InLeapYear_leapDays, E; month_cases m; cbn; lia. }
  rewrite !pad2_two_digits by lia.
  replace (year_of_era (YearFromTime l)) with (YearFromTime l)
    by (unfold year_of_era; destruct (Z.leb_spec (YearFromTime l) 0); lia).
  rewrite (Z_toString_four _ Hy), !two_digits_chars.
  set (d1 := digit_char (DateFromTime l / 10)).
  set (d2 := digit_char (DateFromTime l mod 10)).
  set (m1 := digit_char ((MonthFromTime l + 1) / 10)).
  set (m2 := digit_char ((MonthFromTime l + 1) mod 10)).
  set (y1 := digit_char (YearFromTime l / 1000)).
  set (y2 := digit_char (YearFromTime l / 100 mod 10)).
  set (y3 := digit_char (YearFromTime l / 10 mod 10)).
  set (y4 := digit_char (YearFromTime l mod 10)).
  assert (is_digit d1 = true) by (apply digit_char_is_digit; zlia).
  assert (is_digit d2 = true) by (apply digit_char_is_digit; zlia).
  assert (is_digit m1 = true) by (apply digit_char_is_digit; zlia).
  assert (is_digit m2 = true) by (apply digit_char_is_digit; zlia).
  assert (is_digit y1 = true) by (apply digit_char_is_digit; zlia).
  assert (is_digit y2 = true) by (apply digit_char_is_digit; zlia).
  assert (is_digit y3 = true) by (apply digit_char_is_digit; zlia).
  assert (is_digit y4 = true) by (apply digit_char_is_digit; zlia).
  clearbody d1 d2 m1 m2 y1 y2 y3 y4.
  unfold letters in Hl. clearbody abbr. clear Hd RD RM RD' Hy.
  unfold layout.
  destruct abbr as [|c1 [|c2 [|c3 [|c4 [|c5 rest]]]]]; cbn in Hn;
    try (exfalso; lia); cbn in Hl;
    repeat match type of Hl with
           | (_ && _) = true => let L := fresh "L" in
                                apply andb_true_iff in Hl; destruct Hl as [L Hl]
           end; clear Hl Hn.
  - (* three letters *)
    destruct (String.eqb _ "DD MMM YYYY") eqn:F1;
      [|destruct (String.eqb _ "MMM DD YYYY") eqn:F2]; cbn [orb].
    + f_equal. apply (cut_three d1 d2 c1 c2 c3 y1 y2 y3 y4); assumption.
    + f_equal. apply (reorder_three d1 d2 c1 c2 c3 y1 y2 y3 y4); assumption.
    + f_equal.
      etransitivity; [apply f_equal; apply (slashes_untouched d1 d2 m1 m2 y1 y2 y3 y4); assumption|].
      apply (slashes_to_iso d1 d2 m1 m2 y1 y2 y3 y4); assumption.
  - (* four letters *)
    destruct (String.eqb _ "DD MMM YYYY") eqn:F1;
      [|destruct (String.eqb _ "MMM DD YYYY") eqn:F2]; cbn [orb].
    + f_equal. apply (cut_four d1 d2 c1 c2 c3 c4 y1 y2 y3 y4); assumption.
    + f_equal. apply (reorder_four d1 d2 c1 c2 c3 c4 y1 y2 y3 y4); assumption.
    + f_equal.
      etransitivity; [apply f_equal; apply (slashes_untouched d1 d2 m1 m2 y1 y2 y3 y4); assumption|].
      apply (slashes_to_iso d1 d2 m1 m2 y1 y2 y3 y4); assumption.
Qed.

(** C1 in a month with a four-letter abbreviation.  Take a host that
    abbreviates the month of the date with four letters, as en-GB does
    for September ("Sept"), a year of four digits, and options without
    hints other than day, month and year (the options left out, [{}],
    or any choice of the three).  The "MMM DD YYYY" branch looks for a
    month of exactly three letters, finds none and returns the text as
    it came, day first and month uncut; the "DD MMM YYYY" branch, which
    allows three or four letters, returns the month cut to three
    letters. *)
Theorem MMM_DD_YYYY_four_letter_month h v options unix t0 :
  let l := LocalTime h t0 in
  let abbr := month_abbr h (MonthFromTime l) in
  let dd := two_digits (DateFromTime l) in
  let yyyy := Z_toString (YearFromTime l) in
  plain options ->
  dateObj_of h v (default false unix) = Normal (Some t0) ->
  1000 <= YearFromTime l <= 9999 ->
  letters abbr = true ->
  String.length abbr = 4%nat ->
  getFormattedDateString h v options (Some "MMM DD YYYY") unix
  = Normal (dd ++ " " ++ abbr ++ " " ++ yyyy)%string /\
  getFormattedDateString h v options (Some "DD MMM YYYY") unix
  = Normal (dd ++ " " ++ substring 0 3 abbr ++ " " ++ yyyy)%string.
Proof.
  intros l abbr dd yyyy Hp Hd Hy Hl Hn.
  split.
  - rewrite (getFormattedDateString_layout h v options _ unix t0 Hp Hd Hy Hl)
      by (right; exact Hn).
    fold l abbr dd yyyy. unfold layout.
    cbn [default String.eqb Ascii.eqb Bool.eqb]. rewrite Hn. reflexivity.
  - rewrite (getFormattedDateString_layout h v options _ unix t0 Hp Hd Hy Hl)
      by (right; exact Hn).
    reflexivity.
Qed.

Lemma MMM_DD_YYYY_four_letter_month_witness :
  getFormattedDateString RefHost.host (VString "2023-09-15") (Some no_hints)
                         (Some "MMM DD YYYY") None
  = Normal "15 Sept 2023" /\
  getFormattedDateString RefHost.host (VString "2023-09-15") (Some no_hints)
                         (Some "DD MMM YYYY") None
  = Normal "15 Sep 2023".
Proof.
  apply (MMM_DD_YYYY_four_letter_month RefHost.host (VString "2023-09-15")
           (Some no_hints) None 1694736000000).
  - reflexivity.
  - reflexivity.
  - vm_compute. split; discriminate.
  - reflexivity.
  - reflexivity.
Defined.

(** In a month with a three-letter abbreviation the same call gives
    month, day, year. *)
Example MMM_DD_YYYY_in_May :
  getFormattedDateString RefHost.host (VString "2023-05-15") (Some no_hints)
                         (Some "MMM DD YYYY") None
  = Normal "May 15 2023".
Proof. reflexivity. Qed.

(* ------------------------------------------------------------------ *)
(** * The matcher against the language of a pattern *)

Lemma rep_sound {R} c s : forall lo hi (k : list ascii -> option R) res,
    rep c lo hi s k = Some res ->
    exists w s1,
      s = w ++ s1 /\
      Forall (fun a => cls_test c a = true) w /\
      (lo <= length w)%nat /\
      match hi with Some n => (length w <= n)%nat | None => True end /\
      k s1 = Some res.
Proof.
  induction s as [|a s IH]; intros lo hi k res H.
  - cbn in H. destruct lo; [|discriminate].
    exists [], []. repeat split; auto. destruct hi; cbn; lia.
  - cbn in H.
    assert (Stop : match lo with O => k (a :: s) | S _ => None end = Some res ->
                   exists w s1,
                     a :: s = w ++ s1 /\
                     Forall (fun a => cls_test c a = true) w /\
                     (lo <= length w)%nat /\
                     match hi with Some n => (length w <= n)%nat | None => True end /\
                     k s1 = Some res).
    { intros E. destruct lo; [|discriminate].
      exists [], (a :: s). repeat split; auto. destruct hi; cbn; lia. }
    destruct (room hi) eqn:Rm; [|auto].
    destruct (cls_test c a) eqn:T; [|auto]. cbn [andb] in H.
    destruct (rep c (pred lo) (option_map pred hi) s k) as [r|] eqn:E; [|auto].
    injection H as <-.
    destruct (IH _ _ _ _ E) as (w & s1 & -> & F & L & U & K).
    exists (a :: w), s1. repeat split; auto.
    + cbn. lia.
    + destruct hi as [[|n]|]; cbn in *; try discriminate; lia.
Qed.

Lemma rep_complete {R} c w : forall lo hi s1 (k : list ascii -> option R),
    Forall (fun a => cls_test c a = true) w ->
    (lo <= length w)%nat ->
    match hi with Some n => (length w <= n)%nat | None => True end ->
    k s1 <> None ->
    rep c lo hi (w ++ s1) k <> None.
Proof.
  induction w as [|a w IH]; intros lo hi s1 k F L U K.
  - cbn in L. assert (lo = O) by lia. subst lo. cbn [app].
    destruct s1 as [|b s1]; cbn; [exact K|].
    destruct (room hi && cls_test c b); [|exact K].
    destruct (rep c 0 (option_map pred hi) s1 k); [discriminate|exact K].
  - inversion F as [|? ? Ta Fw]; subst. cbn [app rep]. rewrite Ta.
    assert (Rm : room hi = true)
      by (destruct hi as [[|n]|]; cbn in *; auto; lia).
    rewrite Rm. cbn [andb].
    assert (N : rep c (pred lo) (option_map pred hi) (w ++ s1) k <> None).
    { apply IH; auto.
      - cbn in L. lia.
      - destruct hi as [[|n]|]; cbn in *; auto; lia. }
    destruct (rep c (pred lo) (option_map pred hi) (w ++ s1) k);
      [discriminate|contradiction].
Qed.

Lemma firstn_consumed (w s1 : list ascii) :
  firstn (length (w ++ s1) - length s1) (w ++ s1) = w.
Proof.
  rewrite length_app, Nat.add_sub.
  rewrite firstn_app, Nat.sub_diag, firstn_all. cbn. apply app_nil_r.
Qed.

(** Soundness: what the matcher consumes belongs to the pattern, and
    the captures it hands on are those of that derivation. *)
Lemma m_sound r : forall s cs k res,
    m r s cs k = Some res ->
    exists w s1 cs1,
      s = w ++ s1 /\ derives r w cs cs1 /\ k s1 cs1 = Some res.
Proof.
  induction r as [c|c lo hi|r1 IH1 r2 IH2|n r IH]; intros s cs k res H; cbn in H.
  - destruct s as [|a s]; [discriminate|].
    destruct (cls_test c a) eqn:T; [|discriminate].
    exists [a], s, cs. cbn. eauto 7.
  - destruct (rep_sound _ _ _ _ _ _ H) as (w & s1 & -> & F & L & U & K).
    exists w, s1, cs. cbn. auto 7.
  - destruct (IH1 _ _ _ _ H) as (w1 & s1 & cs1 & -> & D1 & K1).
    destruct (IH2 _ _ _ _ K1) as (w2 & s2 & cs2 & -> & D2 & K2).
    exists (w1 ++ w2), s2, cs2. rewrite <- app_assoc. cbn. eauto 9.
  - destruct (IH _ _ _ _ H) as (w & s1 & cs1 & -> & D & K).
    rewrite firstn_consumed in K.
    exists w, s1, ((n, w) :: cs1). cbn. eauto.
Qed.

(** Completeness: if some prefix belongs to the pattern and the
    continuation accepts what follows it, the matcher finds a match
    (not necessarily that one). *)
Lemma m_complete r : forall w cs0 cs1 s1 cs k,
    derives r w cs0 cs1 ->
    (forall c, k s1 c <> None) ->
    m r (w ++ s1) cs k <> None.
Proof.
  induction r as [c|c lo hi|r1 IH1 r2 IH2|n r IH];
    intros w cs0 cs1 s1 cs k D K; cbn in D |- *.
  - destruct D as [(a & -> & T) _]. cbn. rewrite T. apply K.
  - destruct D as [(F & L & U) _]. apply rep_complete; auto.
  - destruct D as (w1 & w2 & c1 & -> & D1 & D2).
    rewrite <- app_assoc. eapply IH1; [exact D1|].
    intros c. eapply IH2; [exact D2|exact K].
  - destruct D as (c1 & D & _). eapply IH; eauto.
Qed.

Lemma match_here_sound r s rest cs :
  match_here r s = Some (rest, cs) ->
  exists w, s = w ++ rest /\ derives r w [] cs.
Proof.
  unfold match_here. intros H.
  destruct (m_sound _ _ _ _ _ H) as (w & s1 & cs1 & -> & D & K).
  injection K as <- <-. eauto.
Qed.

Lemma match_here_complete r w post :
  lang r w -> match_here r (w ++ post) <> None.
Proof.
  intros [cs D]. unfold match_here.
  eapply m_complete; eauto. discriminate.
Qed.

Lemma exec_unfold r s :
  exec r s =
  match match_here r s with
  | Some (rest, cs) =>
      Some (MatchResult [] (firstn (length s - length rest) s) rest cs)
  | None =>
      match s with
      | [] => None
      | a :: s' => option_map (shift a) (exec r s')
      end
  end.
Proof. destruct s; reflexivity. Qed.

Lemma match_here_consumed r s rest cs :
  match_here r s = Some (rest, cs) ->
  s = firstn (length s - length rest) s ++ rest /\
  derives r (firstn (length s - length rest) s) [] cs.
Proof.
  intros E. destruct (match_here_sound _ _ _ _ E) as (w & -> & D).
  rewrite firstn_consumed. auto.
Qed.

Lemma exec_sound r s : forall mr,
    exec r s = Some mr ->
    s = before mr ++ matched mr ++ after mr /\
    derives r (matched mr) [] (groups mr).
Proof.
  induction s as [|a s IH]; intros mr H; rewrite exec_unfold in H;
    destruct (match_here r _) as [[rest cs]|] eqn:E.
  - injection H as <-. apply (match_here_consumed _ _ _ _ E).
  - discriminate.
  - injection H as <-. apply (match_here_consumed _ _ _ _ E).
  - destruct (exec r s) as [mr'|] eqn:E'; [|discriminate].
    injection H as <-. destruct (IH _ eq_refl) as [S D].
    cbn. split; [f_equal; exact S | exact D].
Qed.

Lemma exec_complete r s : exec r s = None -> ~ occurs r s.
Proof.
  induction s as [|a s IH]; intros H (pre & w & post & S & L);
    rewrite exec_unfold in H;
    destruct (match_here r _) as [[rest cs]|] eqn:E; try discriminate.
  - destruct pre; [|discriminate]. cbn in S.
    apply (match_here_complete r w post L). rewrite <- S. exact E.
  - destruct (exec r s) eqn:E'; [discriminate|].
    destruct pre as [|b pre].
    + cbn in S. apply (match_here_complete r w post L). rewrite <- S. exact E.
    + injection S as -> S. apply (IH eq_refl). exists pre, w, post. auto.
Qed.

(** [exec] fails exactly when the pattern occurs nowhere in the text. *)
Lemma exec_None_iff r s : exec r s = None <-> ~ occurs r s.
Proof.
  split; [apply exec_complete|].
  intros N. destruct (exec r s) as [mr|] eqn:E; [|reflexivity].
  exfalso. apply N. destruct (exec_sound _ _ _ E) as [S D].
  exists (before mr), (matched mr), (after mr). split; [exact S|].
  exists (groups mr). exact D.
Qed.


(* ------------------------------------------------------------------ *)
(** * [parseCryptoLongcode] *)

Lemma re_hash_derives hi w cs :
  derives (re_hash hi) w [] cs ->
  exists sp a b,
    w = ":"%char :: sp :: a ++ b /\
    cs = [(1%nat, a ++ b)] /\
    is_space sp = true /\
    Forall (fun c => is_alnum c = true) a /\ (1 <= length a)%nat /\
    Forall (fun c => is_line_terminator c = false) b /\
    (25 <= length b <= hi)%nat.
Proof.
  unfold re_hash. cbn [derives].
  intros (w1 & w2 & c1 & -> & [(x & -> & Hx) ->] &
               w3 & w4 & c2 & -> & [(sp & -> & Hsp) ->] &
               c3 & (a & b & c4 & -> & [(Fa & La & _) ->] & [(Fb & Lb & Ub) ->]) & ->).
  cbn [cls_test] in Hx, Hsp. apply Ascii.eqb_eq in Hx. subst x.
  exists sp, a, b. repeat split; auto.
  eapply Forall_impl; [|exact Fb]. cbn [cls_test]. intros c H.
  apply negb_true_iff. exact H.
Qed.

Lemma undefined_has_no_hash hi : exec (re_hash hi) (chars "undefined") = None.
Proof. reflexivity. Qed.

Lemma parseCryptoLongcode_fields longcode :
  addressHash (parseCryptoLongcode longcode)
  = extract 28 (splitLongcode (parseCryptoLongcode longcode)) 0 /\
  blockchainHash (parseCryptoLongcode longcode)
  = extract 34 (splitLongcode (parseCryptoLongcode longcode)) 1.
Proof. split; reflexivity. Qed.

Lemma extract_Some hi tokens i hsh :
  extract hi tokens i = Some hsh ->
  exists token, nth_error tokens i = Some token /\ hash_in hi token hsh.
Proof.
  unfold extract, element_text. intros H.
  destruct (nth_error tokens i) as [token|].
  2:{ rewrite undefined_has_no_hash in H. discriminate. }
  exists token. split; [reflexivity|].
  destruct (exec (re_hash hi) (chars token)) as [mr|] eqn:E; [|discriminate].
  destruct (exec_sound _ _ _ E) as [S D].
  destruct (re_hash_derives _ _ _ D) as (sp & a & b & M & G & Hsp & Fa & La & Fb & Lb).
  unfold group in H. rewrite G in H. cbn in H. injection H as <-.
  exists (before mr), sp, a, b, (after mr).
  rewrite chars_str, S, M, length_app.
  repeat split; auto; try lia.
  - cbn. rewrite <- app_assoc. reflexivity.
  - intros ->. cbn in La. lia.
Qed.

Lemma extract_None hi tokens i :
  extract hi tokens i = None <->
  (forall token, nth_error tokens i = Some token ->
                 ~ occurs (re_hash hi) (chars token)).
Proof.
  unfold extract, element_text.
  destruct (nth_error tokens i) as [token|].
  - destruct (exec (re_hash hi) (chars token)) as [mr|] eqn:E.
    + destruct (exec_sound _ _ _ E) as [S D].
      destruct (re_hash_derives _ _ _ D) as (sp & a & b & _ & G & _).
      unfold group. rewrite G. cbn. split; [discriminate|].
      intros N. exfalso. apply (N token eq_refl).
      exists (before mr), (matched mr), (after mr). split; [exact S|].
      exists (groups mr). exact D.
    + split; [|reflexivity]. intros _ t [= <-]. apply exec_None_iff, E.
  - rewrite undefined_has_no_hash. split; [discriminate | reflexivity].
Qed.

(** C4 as stated fails: the address hash taken from this longcode has
    44 characters, among them a space and two brackets. *)
Lemma address_hash_not_alnum_26_29 :
  exists hsh,
    addressHash
      (parseCryptoLongcode
         "address: 1A1zP1eP5QGefi2DMPTfTL5SLmv7DivfNa (pending), transaction: none")
    = Some hsh /\
    ~ alnum_between 26 29 hsh.
Proof.
  eexists. split; [vm_compute; reflexivity|].
  intros [[_ H] _]. vm_compute in H. lia.
Qed.

(** C4, as the code has it.  A defined [addressHash] is text of the
    first token that follows a colon and one white-space character; it
    consists of one or more alphanumeric characters followed by 25 to 28
    further characters, which may be anything but line terminators, so
    it has at least 26 characters and no upper bound.  A defined
    [blockchainHash] is the same with 25 to 34 further characters, taken
    from the second token. *)
Theorem hashes_as_extracted (longcode : string) :
  let r := parseCryptoLongcode longcode in
  (forall hsh,
      addressHash r = Some hsh ->
      exists token,
        nth_error (splitLongcode r) 0 = Some token /\ hash_in 28 token hsh) /\
  (forall hsh,
      blockchainHash r = Some hsh ->
      exists token,
        nth_error (splitLongcode r) 1 = Some token /\ hash_in 34 token hsh).
Proof.
  intros r. destruct (parseCryptoLongcode_fields longcode) as [A B].
  fold r in A, B. rewrite A, B.
  split; intros hsh H; apply extract_Some, H.
Qed.

Lemma hashes_as_extracted_witness :
  exists token,
    nth_error
      (splitLongcode
         (parseCryptoLongcode
            "address: 1A1zP1eP5QGefi2DMPTfTL5SLmv7DivfNa, transaction: 4a5e1e4baab89f3a32518a88c31bc87f"))
      1 = Some token /\
    hash_in 34 token "4a5e1e4baab89f3a32518a88c31bc87f".
Proof.
  apply (proj2 (hashes_as_extracted
                  "address: 1A1zP1eP5QGefi2DMPTfTL5SLmv7DivfNa, transaction: 4a5e1e4baab89f3a32518a88c31bc87f")).
  reflexivity.
Defined.

(* ------------------------------------------------------------------ *)
(** * More on [parseCryptoLongcode]: the tokens and well-formed segments *)

Local Close Scope Z_scope.

Lemma chars_app s1 s2 : chars (s1 ++ s2)%string = chars s1 ++ chars s2.
Proof. induction s1 as [|a s1 IH]; cbn; [reflexivity|]. f_equal. exact IH. Qed.

Lemma str_app l1 l2 : str (l1 ++ l2) = (str l1 ++ str l2)%string.
Proof. induction l1 as [|a l1 IH]; cbn; [reflexivity|]. f_equal. exact IH. Qed.

(** The separator pattern looks at two characters. *)
Lemma separator_here s :
  match_here re_comma_space s =
  match s with
  | c :: w :: rest =>
      if Ascii.eqb "," c && is_space w then Some (rest, []) else None
  | _ => None
  end.
Proof.
  unfold match_here, re_comma_space.
  destruct s as [|c [|w rest]]; cbn [m cls_test]; try reflexivity.
  - destruct (Ascii.eqb "," c); reflexivity.
  - destruct (Ascii.eqb "," c); [|reflexivity]. destruct (is_space w); reflexivity.
Qed.

Lemma separator_lang w :
  lang re_comma_space w <-> exists sp, w = [","%char; sp] /\ is_space sp = true.
Proof.
  unfold lang, re_comma_space. cbn [derives cls_test]. split.
  - intros (cs & w1 & w2 & c1 & -> & [(a & -> & Ha) _] & [(b & -> & Hb) _]).
    apply Ascii.eqb_eq in Ha. subst a. exists b. auto.
  - intros (sp & -> & Hsp). exists [], [","%char], [sp], [].
    repeat split; eauto.
Qed.

Lemma split_aux_skip s n cur a :
  split_aux re_comma_space (a :: s) (S n) cur = split_aux re_comma_space s n cur.
Proof. reflexivity. Qed.

Lemma split_aux_step a s cur :
  split_aux re_comma_space (a :: s) 0 cur =
  match s with
  | w :: _ =>
      if Ascii.eqb "," a && is_space w
      then str (rev cur) :: split_aux re_comma_space s 1 []
      else split_aux re_comma_space s 0 (a :: cur)
  | [] => split_aux re_comma_space s 0 (a :: cur)
  end.
Proof.
  cbn [split_aux]. rewrite separator_here.
  destruct s as [|w rest]; [reflexivity|].
  destruct (Ascii.eqb "," a && is_space w); [|reflexivity].
  replace (length (a :: w :: rest) - length rest) with 2
    by (cbn [length]; lia).
  reflexivity.
Qed.

Lemma split_aux_app s1 : forall skip cur w s2,
    is_space w = true -> skip <= length s1 ->
    split_aux re_comma_space (s1 ++ ","%char :: w :: s2) skip cur
    = split_aux re_comma_space s1 skip cur ++ split_aux re_comma_space s2 0 [].
Proof.
  induction s1 as [|a s1 IH]; intros skip cur w s2 Hw Hs.
  - cbn in Hs. assert (skip = 0) by lia. subst skip. cbn [app].
    rewrite split_aux_step. cbn [Ascii.eqb Bool.eqb andb]. rewrite Hw.
    reflexivity.
  - destruct skip as [|n].
    + cbn [app]. rewrite !split_aux_step.
      destruct s1 as [|b s1'].
      * cbn [app]. replace (is_space ",") with false by reflexivity.
        rewrite andb_false_r. apply (IH 0 (a :: cur)); [exact Hw|cbn; lia].
      * cbn [app]. destruct (Ascii.eqb "," a && is_space b).
        -- cbn [app]. f_equal. apply (IH 1 []); [exact Hw|cbn; lia].
        -- apply (IH 0 (a :: cur)); [exact Hw|cbn; lia].
    + cbn [app]. rewrite !split_aux_skip. apply IH; [exact Hw|cbn in Hs; lia].
Qed.

Lemma split_aux_plain s : forall cur,
    ~ occurs re_comma_space s ->
    split_aux re_comma_space s 0 cur = [str (rev cur ++ s)].
Proof.
  induction s as [|a s IH]; intros cur N.
  - cbn. rewrite app_nil_r. reflexivity.
  - rewrite split_aux_step.
    assert (N' : ~ occurs re_comma_space s).
    { intros (pre & w & post & -> & L). apply N.
      exists (a :: pre), w, post. auto. }
    assert (E : split_aux re_comma_space s 0 (a :: cur) = [str (rev cur ++ a :: s)]).
    { rewrite IH by exact N'. cbn [rev]. rewrite <- app_assoc. reflexivity. }
    destruct s as [|w rest]; [exact E|].
    destruct (Ascii.eqb "," a) eqn:Ea; [|exact E].
    destruct (is_space w) eqn:Ew; [|exact E].
    exfalso. apply N. apply Ascii.eqb_eq in Ea. subst a.
    exists [], [","%char; w], rest. split; [reflexivity|].
    apply separator_lang. eauto.
Qed.

Lemma split_aux_nonempty s : forall skip cur,
    split_aux re_comma_space s skip cur <> [].
Proof.
  induction s as [|a s IH]; intros skip cur; [discriminate|].
  destruct skip; [|apply IH].
  rewrite split_aux_step. destruct s as [|w rest]; [apply IH|].
  destruct (Ascii.eqb "," a && is_space w); [discriminate|apply IH].
Qed.

Lemma join_cons t t' rest w ws :
  join (t :: t' :: rest) (w :: ws)
  = (t ++ String "," (String w (join (t' :: rest) ws)))%string.
Proof. reflexivity. Qed.

Lemma append_assoc (a b c : string) : ((a ++ b) ++ c = a ++ (b ++ c))%string.
Proof. induction a as [|x a IH]; cbn; [reflexivity|]. f_equal. exact IH. Qed.

Lemma join_app ts1 : forall ws1 ts2 w ws2,
    ts1 <> [] -> ts2 <> [] -> length ws1 = length ts1 - 1 ->
    join (ts1 ++ ts2) (ws1 ++ w :: ws2)
    = (join ts1 ws1 ++ String "," (String w (join ts2 ws2)))%string.
Proof.
  induction ts1 as [|t ts1 IH]; intros ws1 ts2 w ws2 N1 N2 L; [contradiction|].
  destruct ts1 as [|t' ts1'].
  - cbn in L. destruct ws1; [|discriminate].
    destruct ts2 as [|u ts2]; [contradiction|]. reflexivity.
  - destruct ws1 as [|w1 ws1]; [discriminate|].
    change ((t :: t' :: ts1') ++ ts2) with (t :: t' :: (ts1' ++ ts2)).
    change ((w1 :: ws1) ++ w :: ws2) with (w1 :: (ws1 ++ w :: ws2)).
    rewrite !join_cons.
    change (t' :: ts1' ++ ts2) with ((t' :: ts1') ++ ts2).
    rewrite IH; [|discriminate|exact N2|cbn in L |- *; lia].
    rewrite append_assoc. reflexivity.
Qed.

(** A text either has no separator or splits around one. *)
Lemma separator_cases l :
  ~ occurs re_comma_space l \/
  exists pre sp post, l = pre ++ ","%char :: sp :: post /\ is_space sp = true.
Proof.
  destruct (exec re_comma_space l) as [mr|] eqn:E.
  - right. destruct (exec_sound _ _ _ E) as [S D].
    assert (L : lang re_comma_space (matched mr)) by (exists (groups mr); exact D).
    apply separator_lang in L. destruct L as (sp & M & Hsp).
    exists (before mr), sp, (after mr). rewrite S, M. auto.
  - left. apply exec_None_iff, E.
Qed.

Lemma split_chars_ind (P : list ascii -> Prop) :
  (forall l, ~ occurs re_comma_space l -> P l) ->
  (forall pre sp post, is_space sp = true -> P pre -> P post ->
                       P (pre ++ ","%char :: sp :: post)) ->
  forall l, P l.
Proof.
  intros H0 H1 l.
  remember (length l) as n eqn:Hn. revert l Hn.
  induction n as [n IH] using lt_wf_ind. intros l Hn.
  destruct (separator_cases l) as [N|(pre & sp & post & -> & Hsp)]; [auto|].
  rewrite length_app in Hn. cbn [length] in Hn.
  apply H1; [exact Hsp| |]; eapply IH; try reflexivity; lia.
Qed.

Lemma split_chars_app pre sp post :
  is_space sp = true ->
  split_chars (pre ++ ","%char :: sp :: post) = split_chars pre ++ split_chars post.
Proof. intros H. apply split_aux_app; [exact H|lia]. Qed.

Lemma split_chars_plain l :
  ~ occurs re_comma_space l -> split_chars l = [str l].
Proof. intros N. apply (split_aux_plain l [] N). Qed.

Lemma split_chars_nonempty l : split_chars l <> [].
Proof. apply split_aux_nonempty. Qed.

Lemma tokens_plain l :
  Forall (fun t => ~ occurs re_comma_space (chars t)) (split_chars l).
Proof.
  induction l as [l N|pre sp post Hsp IH1 IH2] using split_chars_ind.
  - rewrite split_chars_plain by exact N. constructor; [|constructor].
    rewrite chars_str. exact N.
  - rewrite split_chars_app by exact Hsp. apply Forall_app. auto.
Qed.

Lemma tokens_join l :
  exists ws,
    Forall (fun w => is_space w = true) ws /\
    length ws = length (split_chars l) - 1 /\
    join (split_chars l) ws = str l.
Proof.
  induction l as [l N|pre sp post Hsp (ws1 & F1 & L1 & J1) (ws2 & F2 & L2 & J2)]
                   using split_chars_ind.
  - exists []. rewrite split_chars_plain by exact N. repeat split; constructor.
  - exists (ws1 ++ sp :: ws2). rewrite split_chars_app by exact Hsp.
    pose proof (split_chars_nonempty pre) as N1.
    pose proof (split_chars_nonempty post) as N2.
    split; [apply Forall_app; auto|]. split.
    + rewrite !length_app. cbn [length].
      destruct (split_chars pre); [contradiction|].
      destruct (split_chars post); [contradiction|]. cbn [length] in *. lia.
    + rewrite join_app by assumption. rewrite J1, J2, str_app. reflexivity.
Qed.

Lemma tokens_inside l :
  Forall (fun t => exists pre post, l = pre ++ chars t ++ post) (split_chars l).
Proof.
  induction l as [l N|pre sp post Hsp IH1 IH2] using split_chars_ind.
  - rewrite split_chars_plain by exact N. constructor; [|constructor].
    exists [], []. rewrite chars_str, app_nil_r. reflexivity.
  - rewrite split_chars_app by exact Hsp. apply Forall_app. split.
    + eapply Forall_impl; [|exact IH1]. cbn. intros t (p & q & ->).
      exists p, (q ++ ","%char :: sp :: post). rewrite <- !app_assoc. reflexivity.
    + eapply Forall_impl; [|exact IH2]. cbn. intros t (p & q & ->).
      exists (pre ++ ","%char :: sp :: p), q.
      rewrite <- !app_assoc. reflexivity.
Qed.

(** ** Greedy repetition *)

Lemma rep_short {R} c s : forall lo hi (k : list ascii -> option R),
    length s < lo -> rep c lo hi s k = None.
Proof.
  induction s as [|a s IH]; intros lo hi k L.
  - destruct lo; [cbn in L; lia|reflexivity].
  - destruct lo as [|lo]; [cbn in L; lia|]. cbn [rep].
    destruct (room hi && cls_test c a); [|reflexivity].
    rewrite IH; [reflexivity|cbn in L |- *; lia].
Qed.

Lemma rep_never {R} c s : forall lo hi (k : list ascii -> option R),
    (forall s', length s' <= length s -> k s' = None) ->
    rep c lo hi s k = None.
Proof.
  induction s as [|a s IH]; intros lo hi k K.
  - cbn. destruct lo; [apply K; lia|reflexivity].
  - cbn [rep].
    assert (E : match lo with 0 => k (a :: s) | S _ => None end = None)
      by (destruct lo; [apply K; lia|reflexivity]).
    destruct (room hi && cls_test c a); [|exact E].
    rewrite IH; [exact E|]. intros s' L. apply K. cbn. lia.
Qed.

Lemma rep_exact {R} c s : forall lo hi (k : list ascii -> option R),
    Forall (fun a => cls_test c a = true) s ->
    length s = lo -> lo <= hi ->
    rep c lo (Some hi) s k = k [].
Proof.
  induction s as [|a s IH]; intros lo hi k F L U.
  - cbn in L. subst lo. reflexivity.
  - inversion F as [|? ? Ta Fs]; subst. cbn [length] in U. cbn [rep length].
    destruct hi as [|hi]; [lia|]. cbn [room andb pred option_map]. rewrite Ta.
    rewrite (IH (length s) hi k Fs eq_refl) by lia.
    destruct (k []); reflexivity.
Qed.

(** A run of characters that both classes accept, at least [lo + n]
    long and with nothing after it: the unbounded repetition takes all
    of it and gives back exactly [n] characters to the counted one. *)
Lemma rep_gives_back {R} c d n hi s : forall lo (k : list ascii -> option R) r,
    Forall (fun a => cls_test c a = true) s ->
    Forall (fun a => cls_test d a = true) s ->
    n <= hi -> lo + n <= length s ->
    k [] = Some r ->
    rep c lo None s (fun s' => rep d n (Some hi) s' k) = Some r.
Proof.
  induction s as [|a s IH]; intros lo k r Fc Fd U L K.
  - cbn in L. assert (lo = 0) by lia. assert (n = 0) by lia. subst. exact K.
  - inversion Fc as [|? ? Ta Fcs]; subst. inversion Fd as [|? ? Da Fds]; subst.
    set (K' := fun s' => rep d n (Some hi) s' k).
    cbn [rep room andb option_map]. rewrite Ta.
    destruct (Nat.le_gt_cases (pred lo + n) (length s)) as [G|G].
    + subst K'. rewrite (IH (pred lo) k r Fcs Fds U G K). reflexivity.
    + cbn [length] in L. assert (lo = 0) by lia. subst lo.
      assert (length (a :: s) = n) by (cbn [length pred] in *; lia).
      rewrite rep_never.
      * subst K'. cbv beta. rewrite (rep_exact d (a :: s) n hi k);
          [exact K | constructor; assumption | assumption | exact U].
      * intros s' L'. subst K'. apply rep_short. cbn [length pred] in *. lia.
Qed.

Lemma alnum_facts c :
  is_alnum c = true ->
  is_line_terminator c = false /\ Ascii.eqb "," c = false /\ Ascii.eqb ":" c = false.
Proof. all_ascii c; vm_compute; intuition congruence. Qed.

Lemma space_not_comma c : is_space c = true -> Ascii.eqb "," c = false.
Proof. all_ascii c; vm_compute; intuition congruence. Qed.

Lemma no_comma_no_separator l : without "," l -> ~ occurs re_comma_space l.
Proof.
  intros W (pre & w & post & -> & L).
  apply separator_lang in L. destruct L as (sp & -> & _).
  apply Forall_app in W. destruct W as [_ W].
  inversion W as [|? ? C _]. discriminate.
Qed.

Lemma hash_here_fails hi c s :
  Ascii.eqb ":" c = false -> match_here (re_hash hi) (c :: s) = None.
Proof. intros H. unfold match_here, re_hash. cbn [m cls_test]. rewrite H. reflexivity. Qed.

Lemma exec_after_label hi label s :
  without ":" label ->
  exec (re_hash hi) (label ++ s)
  = option_map (fun mr => MatchResult (label ++ before mr) (matched mr)
                                      (after mr) (groups mr))
               (exec (re_hash hi) s).
Proof.
  induction 1 as [|c label Hc W IH]; cbn [app].
  - destruct (exec (re_hash hi) s) as [[]|]; reflexivity.
  - rewrite exec_unfold, hash_here_fails by exact Hc. rewrite IH.
    destruct (exec (re_hash hi) s) as [[]|]; reflexivity.
Qed.

Lemma hash_here_exact hi sp h :
  25 <= hi -> is_space sp = true ->
  Forall (fun c => is_alnum c = true) h -> 26 <= length h ->
  match_here (re_hash hi) (":"%char :: sp :: h) = Some ([], [(1, h)]).
Proof.
  intros U Hsp F L. unfold match_here, re_hash.
  cbn [m cls_test]. rewrite Ascii.eqb_refl, Hsp.
  erewrite (rep_gives_back AlNum Dot 25 hi h 1).
  - reflexivity.
  - exact F.
  - eapply Forall_impl; [|exact F]. cbn [cls_test]. intros c H.
    apply alnum_facts in H. destruct H as [H _]. rewrite H. reflexivity.
  - exact U.
  - cbn. lia.
  - cbn [length]. rewrite Nat.sub_0_r, firstn_all. reflexivity.
Qed.

Lemma extract_exact hi tokens i label sp h :
  25 <= hi ->
  nth_error tokens i = Some (str (label ++ ":"%char :: sp :: h)) ->
  without ":" label -> is_space sp = true ->
  Forall (fun c => is_alnum c = true) h -> 26 <= length h ->
  extract hi tokens i = Some (str h).
Proof.
  intros U N W Hsp F L. unfold extract, element_text. rewrite N, chars_str.
  rewrite exec_after_label by exact W.
  rewrite exec_unfold, hash_here_exact by assumption. reflexivity.
Qed.

Lemma hash_needs_28 hi l : length l < 28 -> ~ occurs (re_hash hi) l.
Proof.
  intros L (pre & w & post & -> & cs & D).
  destruct (re_hash_derives _ _ _ D) as (sp & a & b & -> & _ & _ & _ & La & _ & Lb & _).
  rewrite !length_app in L. cbn [length] in L. rewrite length_app in L. lia.
Qed.

Lemma extract_short hi tokens i label tail :
  nth_error tokens i = Some (str (label ++ tail)) ->
  without ":" label -> length tail < 28 ->
  extract hi tokens i = None.
Proof.
  intros N W L. unfold extract, element_text. rewrite N, chars_str.
  rewrite exec_after_label by exact W.
  replace (exec (re_hash hi) tail) with (@None match_result); [reflexivity|].
  symmetry. apply exec_None_iff, hash_needs_28, L.
Qed.

(** ** The longcode as a whole *)

Lemma splitLongcode_chars longcode :
  splitLongcode (parseCryptoLongcode longcode) = split_chars (chars longcode).
Proof. reflexivity. Qed.

Lemma string_cons_chars a s : chars (String a s) = a :: chars s.
Proof. reflexivity. Qed.

(** The segments of a text are its tokens, and nothing else is. *)
Lemma tokens_are_segments l : segments (str l) (split_chars l).
Proof.
  split; [apply tokens_plain|].
  destruct (tokens_join l) as (ws & F & L & J).
  exists ws. repeat split; auto.
  pose proof (split_chars_nonempty l).
  destruct (split_chars l); [contradiction|]. cbn [length] in *. lia.
Qed.

Lemma split_join ts : forall ws,
    Forall (fun t => ~ occurs re_comma_space (chars t)) ts ->
    Forall (fun w => is_space w = true) ws ->
    S (length ws) = length ts ->
    split_chars (chars (join ts ws)) = ts.
Proof.
  induction ts as [|t ts IH]; intros ws Ft Fw L; [discriminate|].
  inversion Ft as [|? ? Nt Fts]; subst.
  destruct ts as [|t' ts'].
  - destruct ws; [|discriminate]. cbn [join].
    rewrite split_chars_plain by exact Nt. rewrite str_chars. reflexivity.
  - destruct ws as [|w ws]; [discriminate|].
    inversion Fw as [|? ? Hw Fws]; subst.
    rewrite join_cons, chars_app, !string_cons_chars.
    rewrite split_chars_app by exact Hw.
    rewrite split_chars_plain by exact Nt. rewrite str_chars.
    rewrite IH; [reflexivity|exact Fts|exact Fws|cbn [length] in *; lia].
Qed.

Lemma segments_unique text ts :
  segments text ts -> split_chars (chars text) = ts.
Proof.
  intros (F & ws & Fw & L & <-). apply split_join; assumption.
Qed.

Lemma tokens_after_first first w rest :
  ~ occurs re_comma_space (chars first) -> is_space w = true ->
  splitLongcode (parseCryptoLongcode (first ++ String "," (String w rest)))
  = first :: splitLongcode (parseCryptoLongcode rest).
Proof.
  intros N Hw. rewrite !splitLongcode_chars, chars_app, !string_cons_chars.
  rewrite split_chars_app by exact Hw.
  rewrite split_chars_plain by exact N. rewrite str_chars. reflexivity.
Qed.

Lemma extract_first hi t ts :
  extract hi (t :: ts) 0 = None <-> ~ occurs (re_hash hi) (chars t).
Proof.
  rewrite extract_None. cbn [nth_error]. split.
  - intros H. apply H. reflexivity.
  - intros H token [= <-]. exact H.
Qed.

(** C10.  [parseCryptoLongcode] is total, also on a longcode with a
    single segment.  Its tokens are the segments of the longcode, the
    pieces between the commas that are followed by white space, and no
    other list of strings is.  Each hash is left unset exactly when its
    own pattern occurs nowhere in its own token (a missing second token
    has nothing to match), and each hash depends on its own token only.
    In terms of the longcode: when it has no separator, the address
    hash is unset exactly when the address pattern occurs nowhere in
    it, and the blockchain hash is unset; when it starts with a segment
    [first] followed by a separator, the address hash is unset exactly
    when the address pattern occurs nowhere in [first], it is the
    address hash of [first] on its own, and the blockchain hash stays
    the same when [first] is replaced by any other segment; and when
    the rest is one segment [second], the blockchain hash is unset
    exactly when the blockchain pattern occurs nowhere in [second]. *)
Theorem extractions_independent (longcode : string) :
  let r := parseCryptoLongcode longcode in
  segments longcode (splitLongcode r) /\
  (forall ts, segments longcode ts -> splitLongcode r = ts) /\
  (addressHash r = None <->
   forall token, nth_error (splitLongcode r) 0 = Some token ->
                 ~ occurs re_address_hash (chars token)) /\
  (blockchainHash r = None <->
   forall token, nth_error (splitLongcode r) 1 = Some token ->
                 ~ occurs re_blockchain_hash (chars token)) /\
  (forall other,
      nth_error (splitLongcode (parseCryptoLongcode other)) 0
      = nth_error (splitLongcode r) 0 ->
      addressHash (parseCryptoLongcode other) = addressHash r) /\
  (forall other,
      nth_error (splitLongcode (parseCryptoLongcode other)) 1
      = nth_error (splitLongcode r) 1 ->
      blockchainHash (parseCryptoLongcode other) = blockchainHash r) /\
  (~ occurs re_comma_space (chars longcode) ->
   (addressHash r = None <-> ~ occurs re_address_hash (chars longcode)) /\
   blockchainHash r = None) /\
  (forall first w rest,
      longcode = (first ++ String "," (String w rest))%string ->
      ~ occurs re_comma_space (chars first) -> is_space w = true ->
      (addressHash r = None <-> ~ occurs re_address_hash (chars first)) /\
      addressHash r = addressHash (parseCryptoLongcode first) /\
      (forall first',
          ~ occurs re_comma_space (chars first') ->
          blockchainHash
            (parseCryptoLongcode (first' ++ String "," (String w rest)))
          = blockchainHash r) /\
      (~ occurs re_comma_space (chars rest) ->
       (blockchainHash r = None <-> ~ occurs re_blockchain_hash (chars rest)))).
Proof.
  intros r. destruct (parseCryptoLongcode_fields longcode) as [A B].
  fold r in A, B. rewrite A, B.
  split.
  { subst r. rewrite splitLongcode_chars.
    rewrite <- (str_chars longcode) at 1. apply tokens_are_segments. }
  split.
  { intros ts H. subst r. rewrite splitLongcode_chars.
    apply segments_unique, H. }
  split; [apply extract_None|]. split; [apply extract_None|].
  split.
  { intros other H. destruct (parseCryptoLongcode_fields other) as [A' _].
    rewrite A'. unfold extract, element_text. rewrite H. reflexivity. }
  split.
  { intros other H. destruct (parseCryptoLongcode_fields other) as [_ B'].
    rewrite B'. unfold extract, element_text. rewrite H. reflexivity. }
  split.
  { intros N. subst r. rewrite splitLongcode_chars.
    rewrite split_chars_plain by exact N. rewrite str_chars.
    split; [apply extract_first|reflexivity]. }
  intros first w rest E N Hw. subst r. subst longcode.
  rewrite tokens_after_first by assumption.
  split; [apply extract_first|]. split.
  { destruct (parseCryptoLongcode_fields first) as [A' _]. rewrite A'.
    rewrite (splitLongcode_chars first), (split_chars_plain (chars first))
      by exact N.
    rewrite str_chars. reflexivity. }
  split.
  { intros first' N'.
    destruct (parseCryptoLongcode_fields
                (first' ++ String "," (String w rest))) as [_ B'].
    rewrite B', tokens_after_first by assumption. reflexivity. }
  intros Nr.
  rewrite (splitLongcode_chars rest), (split_chars_plain (chars rest))
    by exact Nr.
  rewrite str_chars. change (extract 34 [first; rest] 1) with (extract 34 [rest] 0).
  apply extract_first.
Qed.

Lemma extractions_independent_witness :
  addressHash
    (parseCryptoLongcode "oops, transaction: 4a5e1e4baab89f3a32518a88c31bc87f")
  = None /\
  blockchainHash
    (parseCryptoLongcode "oops, transaction: 4a5e1e4baab89f3a32518a88c31bc87f")
  = Some "4a5e1e4baab89f3a32518a88c31bc87f" /\
  splitLongcode
    (parseCryptoLongcode "oops, transaction: 4a5e1e4baab89f3a32518a88c31bc87f")
  = ["oops"; "transaction: 4a5e1e4baab89f3a32518a88c31bc87f"].
Proof.
  destruct (extractions_independent
              "oops, transaction: 4a5e1e4baab89f3a32518a88c31bc87f")
    as (_ & U & _ & _ & _ & _ & _ & F).
  destruct (F "oops" " "%char "transaction: 4a5e1e4baab89f3a32518a88c31bc87f"
              eq_refl)
    as (A & _ & B & _).
  - apply exec_None_iff. vm_compute. reflexivity.
  - reflexivity.
  - split; [|split].
    + apply (proj2 A). apply exec_None_iff. vm_compute. reflexivity.
    + rewrite <- (B "address: 1A1zP1eP5QGefi2DMPTfTL5SLmv7DivfNa").
      * vm_compute. reflexivity.
      * apply exec_None_iff. vm_compute. reflexivity.
    + apply U. split.
      * repeat constructor; apply exec_None_iff; vm_compute; reflexivity.
      * exists [" "%char]. repeat split. repeat constructor.
Defined.


(** X12.  [splitLongcode] is never empty, and it is the longcode itself
    as a single token exactly when the longcode has no comma followed
    by a white-space character. *)
Theorem split_one_token (longcode : string) :
  splitLongcode (parseCryptoLongcode longcode) <> [] /\
  (~ occurs re_comma_space (chars longcode) <->
   splitLongcode (parseCryptoLongcode longcode) = [longcode]).
Proof.
  rewrite splitLongcode_chars. split; [apply split_chars_nonempty|]. split.
  - intros N. rewrite split_chars_plain by exact N. rewrite str_chars. reflexivity.
  - intros E N.
    destruct (separator_cases (chars longcode)) as [N'|(pre & sp & post & S & Hsp)];
      [contradiction|].
    rewrite S, split_chars_app in E by exact Hsp.
    pose proof (split_chars_nonempty pre). pose proof (split_chars_nonempty post).
    destruct (split_chars pre) as [|? [|]]; destruct (split_chars post);
      try contradiction; discriminate.
Qed.

(** X13.  Splitting composes: around a comma and a white-space
    character, the tokens of the whole are the tokens of the left part
    followed by the tokens of the right part. *)
Theorem split_around_separator (s1 s2 : string) (w : ascii) :
  is_space w = true ->
  splitLongcode (parseCryptoLongcode (s1 ++ String "," (String w s2)))
  = splitLongcode (parseCryptoLongcode s1)
    ++ splitLongcode (parseCryptoLongcode s2).
Proof.
  intros H. rewrite !splitLongcode_chars, chars_app, !string_cons_chars.
  apply split_chars_app, H.
Qed.

(** X14.  No token contains a separator: every comma followed by
    white space has been used to split. *)
Theorem tokens_have_no_separator (longcode : string) :
  Forall (fun token => ~ occurs re_comma_space (chars token))
         (splitLongcode (parseCryptoLongcode longcode)).
Proof. rewrite splitLongcode_chars. apply tokens_plain. Qed.

(** X15.  Nothing but separators is lost: the tokens, joined again
    with a comma and a suitable white-space character each, give back
    the longcode.  There is one separator less than there are tokens. *)
Theorem tokens_rejoin (longcode : string) :
  exists ws,
    Forall (fun w => is_space w = true) ws /\
    S (length ws) = length (splitLongcode (parseCryptoLongcode longcode)) /\
    join (splitLongcode (parseCryptoLongcode longcode)) ws = longcode.
Proof.
  rewrite splitLongcode_chars.
  destruct (tokens_join (chars longcode)) as (ws & F & L & J).
  exists ws. rewrite J, str_chars. repeat split; auto.
  pose proof (split_chars_nonempty (chars longcode)).
  destruct (split_chars (chars longcode)); [contradiction|]. cbn [length] in *. lia.
Qed.

Lemma token_inside longcode i token :
  nth_error (splitLongcode (parseCryptoLongcode longcode)) i = Some token ->
  exists pre post, chars longcode = pre ++ chars token ++ post.
Proof.
  intros N. rewrite splitLongcode_chars in N.
  pose proof (tokens_inside (chars longcode)) as F.
  rewrite Forall_forall in F. apply F. eapply nth_error_In, N.
Qed.

Lemma hash_inside hi token hsh :
  hash_in hi token hsh -> exists pre post, chars token = pre ++ chars hsh ++ post.
Proof.
  intros (pre & sp & a & b & post & T & _ & H & _).
  exists (pre ++ [":"%char; sp]), post.
  rewrite T, H, <- !app_assoc. reflexivity.
Qed.

(** X16.  A hash that is returned is a piece of the longcode, taken
    as it stands. *)
Theorem hashes_are_substrings (longcode hsh : string) :
  addressHash (parseCryptoLongcode longcode) = Some hsh \/
  blockchainHash (parseCryptoLongcode longcode) = Some hsh ->
  exists pre post, chars longcode = pre ++ chars hsh ++ post.
Proof.
  destruct (parseCryptoLongcode_fields longcode) as [A B].
  intros [H|H]; [rewrite A in H|rewrite B in H];
    apply extract_Some in H; destruct H as (token & N & HI);
    destruct (token_inside _ _ _ N) as (p & q & ->);
    destruct (hash_inside _ _ _ HI) as (p' & q' & ->);
    exists (p ++ p'), (q' ++ q); rewrite <- !app_assoc; reflexivity.
Qed.

Lemma length_chars s : length (chars s) = String.length s.
Proof. induction s; cbn; auto. Qed.

Lemma segment_chars label sp hsh :
  chars (segment label sp hsh) = chars label ++ ":"%char :: sp :: chars hsh.
Proof. unfold segment. rewrite chars_app. reflexivity. Qed.

Lemma segment_plain label sp hsh :
  well_formed label sp hsh ->
  ~ occurs re_comma_space (chars (segment label sp hsh)).
Proof.
  intros (_ & C & Hsp & F & _). apply no_comma_no_separator.
  rewrite segment_chars. apply Forall_app. split; [exact C|].
  constructor; [reflexivity|]. constructor; [apply space_not_comma, Hsp|].
  eapply Forall_impl; [|exact F]. intros c H. apply alnum_facts in H. tauto.
Qed.

Lemma segment_extract hi tokens i label sp hsh :
  25 <= hi ->
  nth_error tokens i = Some (segment label sp hsh) ->
  well_formed label sp hsh ->
  extract hi tokens i = Some hsh.
Proof.
  intros U N (W & _ & Hsp & F & L).
  rewrite <- (str_chars hsh).
  apply (extract_exact hi tokens i (chars label) sp (chars hsh)); auto.
  - rewrite N. f_equal. rewrite <- segment_chars, str_chars. reflexivity.
  - rewrite length_chars. exact L.
Qed.

(** X17.  A longcode that is one well-formed segment: the address hash
    is the whole hash, of any length from 26 characters on, the
    blockchain hash is unset, and the longcode is the only token. *)
Theorem one_segment label sp hsh :
  well_formed label sp hsh ->
  parseCryptoLongcode (segment label sp hsh)
  = {| addressHash := Some hsh;
       blockchainHash := None;
       splitLongcode := [segment label sp hsh] |}.
Proof.
  intros WF.
  assert (S : splitLongcode (parseCryptoLongcode (segment label sp hsh))
              = [segment label sp hsh]).
  { rewrite splitLongcode_chars, split_chars_plain by (apply segment_plain, WF).
    rewrite str_chars. reflexivity. }
  destruct (parseCryptoLongcode_fields (segment label sp hsh)) as [A B].
  rewrite S in A, B.
  rewrite (segment_extract 28 _ 0 label sp hsh) in A by (auto; lia).
  change (extract 34 [segment label sp hsh] 1) with (@None string) in B.
  destruct (parseCryptoLongcode (segment label sp hsh)). cbn in *. congruence.
Qed.

(** X18.  A longcode of two well-formed segments separated by a comma
    and a white-space character: both hashes are found, each in its own
    segment, and there are two tokens. *)
Theorem two_segments label0 sp0 hsh0 w label1 sp1 hsh1 :
  well_formed label0 sp0 hsh0 -> well_formed label1 sp1 hsh1 ->
  is_space w = true ->
  parseCryptoLongcode
    (segment label0 sp0 hsh0 ++ String "," (String w (segment label1 sp1 hsh1)))
  = {| addressHash := Some hsh0;
       blockchainHash := Some hsh1;
       splitLongcode := [segment label0 sp0 hsh0; segment label1 sp1 hsh1] |}.
Proof.
  intros WF0 WF1 Hw.
  set (longcode := (segment label0 sp0 hsh0
                    ++ String "," (String w (segment label1 sp1 hsh1)))%string).
  assert (S : splitLongcode (parseCryptoLongcode longcode)
              = [segment label0 sp0 hsh0; segment label1 sp1 hsh1]).
  { subst longcode.
    rewrite splitLongcode_chars, chars_app, !string_cons_chars.
    rewrite split_chars_app by exact Hw.
    rewrite !split_chars_plain by (apply segment_plain; assumption).
    rewrite !str_chars. reflexivity. }
  destruct (parseCryptoLongcode_fields longcode) as [A B].
  rewrite S in A, B.
  rewrite (segment_extract 28 _ 0 label0 sp0 hsh0) in A by (auto; lia).
  rewrite (segment_extract 34 _ 1 label1 sp1 hsh1) in B by (auto; lia).
  destruct (parseCryptoLongcode longcode). cbn in *. congruence.
Qed.

(** X19.  A token that has fewer than 28 characters from its first
    colon on (or no colon at all) yields no hash: the pattern needs the
    colon, a white-space character and at least 26 more. *)
Theorem short_hash_unset (longcode token : string) (label tail : list ascii) :
  chars token = label ++ tail ->
  without ":" label -> length tail < 28 ->
  (nth_error (splitLongcode (parseCryptoLongcode longcode)) 0 = Some token ->
   addressHash (parseCryptoLongcode longcode) = None) /\
  (nth_error (splitLongcode (parseCryptoLongcode longcode)) 1 = Some token ->
   blockchainHash (parseCryptoLongcode longcode) = None).
Proof.
  intros T W L.
  destruct (parseCryptoLongcode_fields longcode) as [A B].
  rewrite A, B.
  split; intros N; apply (extract_short _ _ _ label tail); auto;
    rewrite N, <- T, str_chars; reflexivity.
Qed.

Lemma split_one_token_witness :
  splitLongcode (parseCryptoLongcode "address: none") = ["address: none"].
Proof.
  apply (proj2 (split_one_token "address: none")).
  apply exec_None_iff. vm_compute. reflexivity.
Defined.

Lemma split_around_separator_witness :
  splitLongcode (parseCryptoLongcode "a, b, c")
  = splitLongcode (parseCryptoLongcode "a, b")
    ++ splitLongcode (parseCryptoLongcode "c").
Proof.
  apply (split_around_separator "a, b" "c" " "). reflexivity.
Defined.

Lemma hashes_are_substrings_witness :
  exists pre post,
    chars "address: 1A1zP1eP5QGefi2DMPTfTL5SLmv7DivfNa, id: 7"
    = pre ++ chars "1A1zP1eP5QGefi2DMPTfTL5SLmv7DivfNa" ++ post.
Proof.
  apply (hashes_are_substrings
           "address: 1A1zP1eP5QGefi2DMPTfTL5SLmv7DivfNa, id: 7").
  left. vm_compute. reflexivity.
Defined.

Lemma bitcoin_address_well_formed :
  well_formed "address" " " "1A1zP1eP5QGefi2DMPTfTL5SLmv7DivfNa".
Proof.
  repeat split; try (repeat constructor); vm_compute; lia.
Qed.

Lemma transaction_hash_well_formed :
  well_formed "transaction" " " "4a5e1e4baab89f3a32518a88c31bc87f".
Proof.
  repeat split; try (repeat constructor); vm_compute; lia.
Qed.

Lemma one_segment_witness :
  parseCryptoLongcode "address: 1A1zP1eP5QGefi2DMPTfTL5SLmv7DivfNa"
  = {| addressHash := Some "1A1zP1eP5QGefi2DMPTfTL5SLmv7DivfNa";
       blockchainHash := None;
       splitLongcode := ["address: 1A1zP1eP5QGefi2DMPTfTL5SLmv7DivfNa"] |}.
Proof.
  apply (one_segment "address" " " "1A1zP1eP5QGefi2DMPTfTL5SLmv7DivfNa").
  exact bitcoin_address_well_formed.
Defined.

Lemma two_segments_witness :
  parseCryptoLongcode
    "address: 1A1zP1eP5QGefi2DMPTfTL5SLmv7DivfNa, transaction: 4a5e1e4baab89f3a32518a88c31bc87f"
  = {| addressHash := Some "1A1zP1eP5QGefi2DMPTfTL5SLmv7DivfNa";
       blockchainHash := Some "4a5e1e4baab89f3a32518a88c31bc87f";
       splitLongcode :=
         ["address: 1A1zP1eP5QGefi2DMPTfTL5SLmv7DivfNa";
          "transaction: 4a5e1e4baab89f3a32518a88c31bc87f"] |}.
Proof.
  apply (two_segments "address" " " "1A1zP1eP5QGefi2DMPTfTL5SLmv7DivfNa" " "
           "transaction" " " "4a5e1e4baab89f3a32518a88c31bc87f").
  - exact bitcoin_address_well_formed.
  - exact transaction_hash_well_formed.
  - reflexivity.
Defined.

Lemma short_hash_unset_witness :
  addressHash (parseCryptoLongcode "address: 1A1zP1eP5QGefi2DMPTfTL5, id: 7")
  = None.
Proof.
  apply (proj1 (short_hash_unset "address: 1A1zP1eP5QGefi2DMPTfTL5, id: 7"
                  "address: 1A1zP1eP5QGefi2DMPTfTL5"
                  (chars "address") (chars ": 1A1zP1eP5QGefi2DMPTfTL5")
                  eq_refl
                  ltac:(repeat constructor)
                  ltac:(vm_compute; lia))).
  vm_compute. reflexivity.
Defined.

Local Open Scope Z_scope.

(* ------------------------------------------------------------------ *)
(** * More on [getFormattedDateString]: the three layouts *)

Lemma DateFromTime_le_31 t : 1 <= DateFromTime t <= 31.
Proof.
  pose proof (DateFromTime_range t) as RD.
  pose proof (MonthFromTime_range t) as RM.
  split; [lia|]. eapply Z.le_trans; [apply RD|].
  unfold DaysInMonth. generalize (MonthFromTime t) RM. intros m Hm.
  destruct (leapDays_cases (YearFromTime t)) as [E|E];
    rewrite InLeapYear_leapDays, E; month_cases m; cbn; lia.
Qed.

Lemma dateObj_of_fold h v unix :
  (if String.eqb (typeof v) "number" && unix
   then Normal (new_Date h (times_1000 v))
   else if String.eqb (typeof v) "string" || instanceof_Date v
        then Normal (new_Date h v)
        else Throw (Error "Invalid date input"))
  = dateObj_of h v unix.
Proof. reflexivity. Qed.

Lemma getFormattedDateString_eq h v options format unix :
  getFormattedDateString h v options format unix
  = (d <- dateObj_of h v (default false unix) ;;
     format_date h (hints_of options) (default "YYYY-MM-DD" format) d).
Proof.
  unfold getFormattedDateString, format_date, hints_of. cbv zeta.
  rewrite dateObj_of_fold.
  destruct (dateObj_of h v (default false unix)) as [d|e]; [|reflexivity].
  cbn [bind].
  destruct (String.eqb (default "YYYY-MM-DD" format) "DD MMM YYYY");
    [reflexivity|].
  destruct (String.eqb (default "YYYY-MM-DD" format) "MMM DD YYYY"); reflexivity.
Qed.

Lemma two_digit_field n :
  0 <= n < 100 ->
  exists a b,
    pad2 n = str [a; b] /\ two_digits n = str [a; b] /\
    is_digit a = true /\ is_digit b = true.
Proof.
  intros H. exists (digit_char (n / 10)), (digit_char (n mod 10)).
  rewrite pad2_two_digits by exact H.
  repeat split; apply digit_char_is_digit; zlia.
Qed.

Lemma year_of_era_positive y : 1 <= y -> year_of_era y = y.
Proof. intros H. unfold year_of_era. destruct (Z.leb_spec y 0); lia. Qed.

Lemma Z_toString_three y :
  100 <= y <= 999 ->
  Z_toString y
  = str [digit_char (y / 100); digit_char (y / 10 mod 10); digit_char (y mod 10)].
Proof.
  intros H. unfold Z_toString, digits.
  destruct (Z.ltb_spec y 0); [lia|].
  assert (L : 6 <= Z.log2 y).
  { change 6 with (Z.log2 64). apply Z.log2_le_mono. lia. }
  destruct (Z.to_nat (Z.log2 y)) as [|[|f]] eqn:E; try lia.
  cbn [digits_fuel].
  destruct (Z.ltb_spec y 10); [lia|].
  destruct (Z.ltb_spec (y / 10) 10); [zlia|].
  destruct (Z.ltb_spec (y / 10 / 10) 10); [|zlia].
  replace (y / 10 / 10 mod 10) with (y / 100) by zlia.
  reflexivity.
Qed.

Lemma Z_toString_five y :
  10000 <= y <= 99999 ->
  Z_toString y
  = str [digit_char (y / 10000); digit_char (y / 1000 mod 10);
         digit_char (y / 100 mod 10); digit_char (y / 10 mod 10);
         digit_char (y mod 10)].
Proof.
  intros H. unfold Z_toString, digits.
  destruct (Z.ltb_spec y 0); [lia|].
  assert (L : 13 <= Z.log2 y).
  { change 13 with (Z.log2 8192). apply Z.log2_le_mono. lia. }
  destruct (Z.to_nat (Z.log2 y)) as [|[|[|[|f]]]] eqn:E; try lia.
  cbn [digits_fuel].
  destruct (Z.ltb_spec y 10); [lia|].
  destruct (Z.ltb_spec (y / 10) 10); [zlia|].
  destruct (Z.ltb_spec (y / 10 / 10) 10); [zlia|].
  destruct (Z.ltb_spec (y / 10 / 10 / 10) 10); [zlia|].
  destruct (Z.ltb_spec (y / 10 / 10 / 10 / 10) 10); [|zlia].
  replace (y / 10 / 10 / 10 / 10 mod 10) with (y / 10000) by zlia.
  replace (y / 10 / 10 / 10 mod 10) with (y / 1000 mod 10) by zlia.
  replace (y / 10 / 10 mod 10) with (y / 100 mod 10) by zlia.
  reflexivity.
Qed.

Lemma slashes3_untouched d1 d2 m1 m2 y1 y2 y3 :
  is_digit d1 = true -> is_digit d2 = true ->
  is_digit m1 = true -> is_digit m2 = true ->
  is_digit y1 = true -> is_digit y2 = true -> is_digit y3 = true ->
  replace re_slashes "$3-$2-$1"
    (replace_with re_day_mon34_year cut_month
       (str [d1; d2; "/"%char; m1; m2; "/"%char; y1; y2; y3]))
  = str [d1; d2; "/"%char; m1; m2; "/"%char; y1; y2; y3].
Proof.
  intros. matcher_facts.
  assert (Ascii.eqb " " "/" = false) by reflexivity.
  assert (E : replace_with re_day_mon34_year cut_month
                (str [d1; d2; "/"%char; m1; m2; "/"%char; y1; y2; y3])
              = str [d1; d2; "/"%char; m1; m2; "/"%char; y1; y2; y3]).
  { unfold replace_with. rewrite chars_str.
    unfold re_day_mon34_year. run_matcher. reflexivity. }
  rewrite E. unfold replace, replace_with. rewrite chars_str.
  unfold re_slashes. run_matcher. reflexivity.
Qed.

Lemma slashes5_garbled d1 d2 m1 m2 y1 y2 y3 y4 y5 :
  is_digit d1 = true -> is_digit d2 = true ->
  is_digit m1 = true -> is_digit m2 = true ->
  is_digit y1 = true -> is_digit y2 = true -> is_digit y3 = true ->
  is_digit y4 = true -> is_digit y5 = true ->
  replace re_slashes "$3-$2-$1"
    (replace_with re_day_mon34_year cut_month
       (str [d1; d2; "/"%char; m1; m2; "/"%char; y1; y2; y3; y4; y5]))
  = str [y1; y2; y3; y4; "-"%char; m1; m2; "-"%char; d1; d2; y5].
Proof.
  intros. matcher_facts.
  assert (Ascii.eqb " " "/" = false) by reflexivity.
  assert (E : replace_with re_day_mon34_year cut_month
                (str [d1; d2; "/"%char; m1; m2; "/"%char; y1; y2; y3; y4; y5])
              = str [d1; d2; "/"%char; m1; m2; "/"%char; y1; y2; y3; y4; y5]).
  { unfold replace_with. rewrite chars_str.
    unfold re_day_mon34_year. run_matcher. reflexivity. }
  rewrite E. unfold replace, replace_with. rewrite chars_str.
  unfold re_slashes. run_matcher. reflexivity.
Qed.

Lemma numeric_text h t0 :
  toLocaleDateString_enGB h (numeric_request []) (Some t0)
  = Normal (pad2 (DateFromTime (LocalTime h t0)) ++ "/" ++
            pad2 (MonthFromTime (LocalTime h t0) + 1) ++ "/" ++
            Z_toString (year_of_era (YearFromTime (LocalTime h t0))))%string.
Proof. reflexivity. Qed.

Lemma format_date_numeric h hints format d :
  numeric_tag format ->
  format_date h hints (default "YYYY-MM-DD" format) d
  = (text <- toLocaleDateString_enGB h (numeric_request hints) d ;;
     Normal (replace re_slashes "$3-$2-$1"
               (replace_with re_day_mon34_year cut_month text))).
Proof.
  intros [N1 N2]. unfold format_date.
  destruct (String.eqb_spec (default "YYYY-MM-DD" format) "DD MMM YYYY");
    [contradiction|].
  destruct (String.eqb_spec (default "YYYY-MM-DD" format) "MMM DD YYYY");
    [contradiction|reflexivity].
Qed.

Ltac date_fields l :=
  let a := fresh "d1" in let b := fresh "d2" in
  let c := fresh "m1" in let d := fresh "m2" in
  destruct (two_digit_field (DateFromTime l))
    as (a & b & -> & -> & ? & ?);
  [pose proof (DateFromTime_le_31 l); lia|];
  destruct (two_digit_field (MonthFromTime l + 1))
    as (c & d & -> & -> & ? & ?);
  [pose proof (MonthFromTime_range l); lia|].

(** X1.  With the default tag, or any tag other than the two textual
    ones, and options without hints other than day, month and year, a
    valid date with a four-digit year is printed as year-month-day, the
    month and day with two digits, in the local time of the host. *)
Theorem default_format_is_iso h v options format unix t0 :
  let l := LocalTime h t0 in
  plain options ->
  dateObj_of h v (default false unix) = Normal (Some t0) ->
  1000 <= YearFromTime l <= 9999 ->
  numeric_tag format ->
  getFormattedDateString h v options format unix
  = Normal (Z_toString (YearFromTime l) ++ "-" ++
            two_digits (MonthFromTime l + 1) ++ "-" ++
            two_digits (DateFromTime l))%string.
Proof.
  intros l Hp Hd Hy Hf.
  rewrite getFormattedDateString_eq, Hd, Hp. cbn [bind].
  rewrite format_date_numeric by exact Hf. rewrite numeric_text. cbn [bind]. fold l.
  rewrite year_of_era_positive by lia. rewrite (Z_toString_four _ Hy).
  date_fields l.
  f_equal.
  etransitivity;
    [apply f_equal; apply (slashes_untouched d1 d2 m1 m2); auto;
     apply digit_char_is_digit; zlia|].
  apply (slashes_to_iso d1 d2 m1 m2); auto; apply digit_char_is_digit; zlia.
Qed.

(** X6.  With the same tags and options a five-digit year is garbled:
    the pattern takes its first four digits for the year, and the last
    digit ends up behind the day. *)
Theorem default_format_five_digit_year h v options format unix t0 :
  let l := LocalTime h t0 in
  let y := YearFromTime l in
  plain options ->
  dateObj_of h v (default false unix) = Normal (Some t0) ->
  10000 <= y <= 99999 ->
  numeric_tag format ->
  getFormattedDateString h v options format unix
  = Normal (Z_toString (y / 10) ++ "-" ++
            two_digits (MonthFromTime l + 1) ++ "-" ++
            two_digits (DateFromTime l) ++ Z_toString (y mod 10))%string.
Proof.
  intros l y Hp Hd Hy Hf.
  rewrite getFormattedDateString_eq, Hd, Hp. cbn [bind].
  rewrite format_date_numeric by exact Hf. rewrite numeric_text. cbn [bind].
  fold l. fold y.
  rewrite year_of_era_positive by lia. rewrite (Z_toString_five _ Hy).
  rewrite (Z_toString_four (y / 10)) by zlia.
  replace (Z_toString (y mod 10)) with (str [digit_char (y mod 10)]).
  2:{ assert (y mod 10 = 0 \/ y mod 10 = 1 \/ y mod 10 = 2 \/ y mod 10 = 3 \/
              y mod 10 = 4 \/ y mod 10 = 5 \/ y mod 10 = 6 \/ y mod 10 = 7 \/
              y mod 10 = 8 \/ y mod 10 = 9) as K by zlia.
      repeat (destruct K as [K|K]; [rewrite K; reflexivity|]).
      rewrite K; reflexivity. }
  replace (y / 10 / 1000) with (y / 10000) by zlia.
  replace (y / 10 / 100 mod 10) with (y / 1000 mod 10) by zlia.
  replace (y / 10 / 10 mod 10) with (y / 100 mod 10) by zlia.
  replace (y / 10 mod 10) with (y / 10 mod 10) by reflexivity.
  date_fields l.
  f_equal.
  apply (slashes5_garbled d1 d2 m1 m2); auto; apply digit_char_is_digit; zlia.
Qed.

(** X7.  With the same tags and options a three-digit year is not
    rearranged at all: the en-GB text, day/month/year with slashes, is
    returned. *)
Theorem default_format_three_digit_year h v options format unix t0 :
  let l := LocalTime h t0 in
  plain options ->
  dateObj_of h v (default false unix) = Normal (Some t0) ->
  100 <= YearFromTime l <= 999 ->
  numeric_tag format ->
  getFormattedDateString h v options format unix
  = Normal (two_digits (DateFromTime l) ++ "/" ++
            two_digits (MonthFromTime l + 1) ++ "/" ++
            Z_toString (YearFromTime l))%string.
Proof.
  intros l Hp Hd Hy Hf.
  rewrite getFormattedDateString_eq, Hd, Hp. cbn [bind].
  rewrite format_date_numeric by exact Hf. rewrite numeric_text. cbn [bind]. fold l.
  rewrite year_of_era_positive by lia. rewrite (Z_toString_three _ Hy).
  date_fields l.
  f_equal.
  apply (slashes3_untouched d1 d2 m1 m2); auto; apply digit_char_is_digit; zlia.
Qed.

(** X4.  The day, month and year hints of the options argument never
    reach the output: every path assigns all three before formatting.
    Two options arguments with the same other hints, and so any two
    without other hints, give the same result. *)
Theorem options_have_no_effect h v o1 o2 format unix :
  hints_of o1 = hints_of o2 ->
  getFormattedDateString h v o1 format unix
  = getFormattedDateString h v o2 format unix.
Proof. intros E. rewrite !getFormattedDateString_eq, E. reflexivity. Qed.

Lemma options_have_no_effect_witness :
  getFormattedDateString RefHost.host (VString "2023-05-15") None None None
  = getFormattedDateString RefHost.host (VString "2023-05-15")
      (Some {| day := Some numeric; month := Some long; year := None;
               other_hints := [] |}) None None /\
  getFormattedDateString RefHost.host (VString "2023-05-15")
      (Some {| day := None; month := None; year := None;
               other_hints := [("weekday", VString "long")] |}) None None
  = getFormattedDateString RefHost.host (VString "2023-05-15")
      (Some {| day := Some numeric; month := Some narrow; year := Some two_digit;
               other_hints := [("weekday", VString "long")] |}) None None.
Proof.
  split.
  - apply (options_have_no_effect RefHost.host (VString "2023-05-15") None
             (Some {| day := Some numeric; month := Some long; year := None;
                      other_hints := [] |})).
    reflexivity.
  - apply (options_have_no_effect RefHost.host (VString "2023-05-15")
             (Some {| day := None; month := None; year := None;
                      other_hints := [("weekday", VString "long")] |})
             (Some {| day := Some numeric; month := Some narrow;
                      year := Some two_digit;
                      other_hints := [("weekday", VString "long")] |})).
    reflexivity.
Defined.

(** The other hints do reach the output: on the reference host a
    weekday hint puts the weekday before the date. *)
Example weekday_hint_is_kept :
  getFormattedDateString RefHost.host (VString "2023-05-15")
      (Some {| day := None; month := None; year := None;
               other_hints := [("weekday", VString "long")] |}) None None
  = Normal "Monday, 2023-05-15".
Proof. vm_compute. reflexivity. Qed.

(** X5.  Any accepted input that normalises to an Invalid Date (a
    [Date] object that is invalid, a number out of range with the unix
    flag, text that does not parse) is formatted, not rejected. *)
Theorem invalid_date_is_formatted h v options format unix :
  dateObj_of h v (default false unix) = Normal None ->
  getFormattedDateString h v options format unix = Normal "Invalid Date" /\
  getFormattedTimeString h v unix = Normal "NaN:NaN:NaN GMT".
Proof.
  intros H. split.
  - rewrite getFormattedDateString_eq, H. cbn [bind]. unfold format_date.
    destruct Invalid_Date_unchanged as (R1 & R2 & R3).
    cbn [toLocaleDateString_enGB bind].
    destruct (String.eqb _ "DD MMM YYYY"); [exact (f_equal _ R2)|].
    destruct (String.eqb _ "MMM DD YYYY"); [exact (f_equal _ R1)|].
    unfold cut_month. rewrite R2, R3. reflexivity.
  - rewrite getFormattedTimeString_eq, H. reflexivity.
Qed.

(** X2.  The tag "DD MMM YYYY" on a valid date with a four-digit year,
    with options without hints other than day, month and year: day,
    month abbreviation cut to three letters, year, whether the host
    abbreviates the month with three letters or four. *)
Theorem DD_MMM_YYYY_cuts_month h v options unix t0 :
  let l := LocalTime h t0 in
  let abbr := month_abbr h (MonthFromTime l) in
  plain options ->
  dateObj_of h v (default false unix) = Normal (Some t0) ->
  1000 <= YearFromTime l <= 9999 ->
  letters abbr = true ->
  (String.length abbr = 3 \/ String.length abbr = 4)%nat ->
  getFormattedDateString h v options (Some "DD MMM YYYY") unix
  = Normal (two_digits (DateFromTime l) ++ " " ++ substring 0 3 abbr ++ " " ++
            Z_toString (YearFromTime l))%string.
Proof.
  intros l abbr Hp Hd Hy Hl Hn.
  rewrite (getFormattedDateString_layout h v options _ unix t0 Hp Hd Hy Hl Hn).
  reflexivity.
Qed.

Lemma DD_MMM_YYYY_cuts_month_witness :
  getFormattedDateString RefHost.host (VString "2023-05-15") None
                         (Some "DD MMM YYYY") None
  = Normal "15 May 2023".
Proof.
  apply (DD_MMM_YYYY_cuts_month RefHost.host (VString "2023-05-15") None None
           1684108800000).
  - reflexivity.
  - reflexivity.
  - vm_compute. split; discriminate.
  - reflexivity.
  - left. reflexivity.
Defined.

(** X3.  The tag "MMM DD YYYY" on a valid date with a four-digit year,
    in a month that the host abbreviates with three letters, with
    options without hints other than day, month and year: month, day,
    year. *)
Theorem MMM_DD_YYYY_three_letter_month h v options unix t0 :
  let l := LocalTime h t0 in
  let abbr := month_abbr h (MonthFromTime l) in
  plain options ->
  dateObj_of h v (default false unix) = Normal (Some t0) ->
  1000 <= YearFromTime l <= 9999 ->
  letters abbr = true ->
  String.length abbr = 3%nat ->
  getFormattedDateString h v options (Some "MMM DD YYYY") unix
  = Normal (abbr ++ " " ++ two_digits (DateFromTime l) ++ " " ++
            Z_toString (YearFromTime l))%string.
Proof.
  intros l abbr Hp Hd Hy Hl Hn.
  rewrite (getFormattedDateString_layout h v options _ unix t0 Hp Hd Hy Hl)
    by (left; exact Hn).
  fold l abbr. unfold layout.
  cbn [default String.eqb Ascii.eqb Bool.eqb]. rewrite Hn. reflexivity.
Qed.

Lemma MMM_DD_YYYY_three_letter_month_witness :
  getFormattedDateString RefHost.host (VNumber (Int 1684161000)) None
                         (Some "MMM DD YYYY") (Some true)
  = Normal "May 15 2023".
Proof.
  apply (MMM_DD_YYYY_three_letter_month RefHost.host (VNumber (Int 1684161000))
           None (Some true) 1684161000000).
  - reflexivity.
  - reflexivity.
  - vm_compute. split; discriminate.
  - reflexivity.
  - reflexivity.
Defined.

Lemma default_format_is_iso_witness :
  getFormattedDateString RefHost.host (VString "2023-05-15") None None None
  = Normal "2023-05-15".
Proof.
  apply (default_format_is_iso RefHost.host (VString "2023-05-15") None None None
           1684108800000).
  - reflexivity.
  - reflexivity.
  - vm_compute. split; discriminate.
  - split; discriminate.
Defined.

Lemma default_format_five_digit_year_witness :
  getFormattedDateString RefHost.host (VDate (Some 327414960000000)) None None None
  = Normal "1234-05-155".
Proof.
  apply (default_format_five_digit_year RefHost.host
           (VDate (Some 327414960000000)) None None None 327414960000000).
  - reflexivity.
  - reflexivity.
  - vm_compute. split; discriminate.
  - split; discriminate.
Defined.

Lemma default_format_three_digit_year_witness :
  getFormattedDateString RefHost.host (VString "0999-05-15") None None None
  = Normal "15/05/999".
Proof.
  apply (default_format_three_digit_year RefHost.host (VString "0999-05-15")
           None None None (-30630182400000)).
  - reflexivity.
  - reflexivity.
  - vm_compute. split; discriminate.
  - split; discriminate.
Defined.

Lemma invalid_date_is_formatted_witness :
  getFormattedDateString RefHost.host (VNumber (Int 10000000000000)) None None
                         (Some true)
  = Normal "Invalid Date" /\
  getFormattedTimeString RefHost.host (VNumber (Int 10000000000000)) (Some true)
  = Normal "NaN:NaN:NaN GMT".
Proof.
  apply (invalid_date_is_formatted RefHost.host (VNumber (Int 10000000000000))).
  reflexivity.
Defined.

(* ------------------------------------------------------------------ *)
(** * More on [getFormattedTimeString], [getAdjustedDate] and [formatMoney] *)



Lemma digit_char_inj a b :
  0 <= a <= 9 -> 0 <= b <= 9 -> digit_char a = digit_char b -> a = b.
Proof.
  intros Ha Hb E. unfold digit_char in E.
  apply (f_equal nat_of_ascii) in E.
  rewrite !nat_ascii_embedding in E by lia. lia.
Qed.

Lemma two_digits_inj a b :
  0 <= a < 100 -> 0 <= b < 100 -> two_digits a = two_digits b -> a = b.
Proof.
  intros Ha Hb E. unfold two_digits in E. injection E as E1 E2.
  apply digit_char_inj in E1; [|zlia|zlia].
  apply digit_char_inj in E2; [|zlia|zlia].
  zlia.
Qed.

Lemma hh_mm_ss_valid t :
  hh_mm_ss (Some t)
  = (two_digits (HourFromTime t) ++ ":" ++ two_digits (MinFromTime t) ++ ":" ++
     two_digits (SecFromTime t) ++ " GMT")%string.
Proof.
  unfold hh_mm_ss, getUTCHours, getUTCMinutes, getUTCSeconds.
  pose proof (HourFromTime_range t). pose proof (MinFromTime_range t).
  pose proof (SecFromTime_range t).
  rewrite !padStart_two_digits by lia. reflexivity.
Qed.

Lemma fields_second_of_day t t' :
  (HourFromTime t = HourFromTime t' /\ MinFromTime t = MinFromTime t' /\
   SecFromTime t = SecFromTime t') <-> second_of_day t = second_of_day t'.
Proof.
  unfold HourFromTime, MinFromTime, SecFromTime, second_of_day,
    msPerHour, msPerMinute, msPerSecond.
  split; intros; zlia.
Qed.

(** X8.  The time string says the second of the UTC day and nothing
    else: two instants give the same string exactly when they are the
    same number of whole seconds past midnight UTC. *)
Theorem time_string_same_iff h (t t' : Z) :
  getFormattedTimeString h (VDate (Some t)) None
  = getFormattedTimeString h (VDate (Some t')) None
  <-> second_of_day t = second_of_day t'.
Proof.
  rewrite !getFormattedTimeString_eq. cbn [dateObj_of typeof instanceof_Date
    String.eqb Ascii.eqb Bool.eqb andb orb default new_Date bind].
  rewrite !hh_mm_ss_valid, <- fields_second_of_day.
  pose proof (HourFromTime_range t). pose proof (MinFromTime_range t).
  pose proof (SecFromTime_range t). pose proof (HourFromTime_range t').
  pose proof (MinFromTime_range t'). pose proof (SecFromTime_range t').
  split.
  - intros E. injection E as E1 E2 E3 E4 E5 E6.
    repeat split; apply two_digits_inj; try lia; unfold two_digits; congruence.
  - intros (-> & -> & ->). reflexivity.
Qed.


(** X10.  An amount that is NaN or infinite gives an Invalid Date for
    the units "days" and "years", and the current date for any other
    unit. *)
Theorem non_finite_amount h (amount : number) type operation :
  (forall z, amount <> Int z) ->
  getAdjustedDate h amount type operation
  = if String.eqb (default "days" type) "years"
       || String.eqb (default "days" type) "days"
    then None else Some (now h).
Proof.
  intros N. unfold getAdjustedDate.
  set (adj := if String.eqb (default "add" operation) "add" then amount
              else num_neg amount).
  assert (Hadj : forall z, adj <> Int z).
  { subst adj. destruct (String.eqb _ "add"); [exact N|].
    destruct amount; [destruct (N _ eq_refl)| |]; cbn; congruence. }
  destruct (String.eqb (default "days" type) "years"); cbn [orb].
  - unfold setFullYear, getFullYear, num_add.
    destruct adj; [destruct (Hadj _ eq_refl)| |]; reflexivity.
  - destruct (String.eqb (default "days" type) "days"); [|reflexivity].
    unfold setDate, getDate, num_add.
    destruct adj; [destruct (Hadj _ eq_refl)| |]; reflexivity.
Qed.

(** X11.  With a [decimalPlaces] other than 0 and NaN the currency has
    no effect on the result. *)
Theorem currency_ignored_with_decimalPlaces
        (precision : string -> option number)
        (NumberFormat : string -> option number -> option number
                        -> completion (number -> string))
        (n d : number) (c1 c2 : option string) (loc : option string) :
  truthy d = true ->
  formatMoney precision NumberFormat n
    (Some {| currency := c1; decimalPlaces := Some d; locale := loc |})
  = formatMoney precision NumberFormat n
      (Some {| currency := c2; decimalPlaces := Some d; locale := loc |}).
Proof.
  intros T. unfold formatMoney. cbv zeta. cbn [default locale].
  rewrite !(fractionDigits_explicit precision _ d) by (auto; exact T).
  reflexivity.
Qed.

Lemma time_string_same_iff_witness :
  getFormattedTimeString RefHost.host (VDate (Some 1684161000000)) None
  = getFormattedTimeString RefHost.host (VDate (Some (1684161000000 + 86400999)))
                           None.
Proof.
  apply (proj2 (time_string_same_iff RefHost.host 1684161000000
                  (1684161000000 + 86400999))).
  reflexivity.
Defined.


Lemma non_finite_amount_witness :
  getAdjustedDate RefHost.host NaN (Some "years") None = None.
Proof.
  rewrite (non_finite_amount RefHost.host NaN (Some "years") None).
  - reflexivity.
  - discriminate.
Defined.

Lemma currency_ignored_with_decimalPlaces_witness :
  formatMoney RefHost.precision RefHost.NumberFormat (Int 1234)
    (Some {| currency := Some "BTC"; decimalPlaces := Some (Int 1);
             locale := None |})
  = formatMoney RefHost.precision RefHost.NumberFormat (Int 1234)
      (Some {| currency := None; decimalPlaces := Some (Int 1);
               locale := None |}).
Proof.
  apply (currency_ignored_with_decimalPlaces RefHost.precision
           RefHost.NumberFormat (Int 1234) (Int 1)).
  reflexivity.
Defined.
